(** * utils.js: DOM watchers and the visibility oracle

    A shallow embedding of [src/utils.js] and the properties of
    [onNewElement], [waitForElement] and [isElementEffectivelyHidden].

    The JavaScript code runs against a browser host.  The host's part
    (the DOM tree, the selector engine, [MutationObserver], promises, the
    console, layout queries) is modelled here after the DOM and ECMAScript
    standards; the three functions are translated statement by statement
    into a small state monad with early [return]. *)

From Stdlib Require Import String Ascii ZArith QArith Bool Lia.
From stdpp Require Import base tactics option list.
From Stdlib Require Import Lqa.

Set Warnings "-register-all".

Local Open Scope string_scope.
Local Open Scope list_scope.
Local Open Scope nat_scope.

(** ** The DOM tree *)

(** The interface an element implements; [x instanceof HTMLElement] holds
    for [HTMLElementI] only (an [<svg>] element is an [Element] but not an
    [HTMLElement]). *)
Inductive ElementInterface : Type :=
| HTMLElementI
| SVGElementI
| OtherElementI.

(** A node with the subtree below it.  [uid] stands for the identity of
    the JavaScript object. *)
Inductive Node : Type :=
| Element (uid : nat) (iface : ElementInterface) (tagName : string)
          (idAttr : string) (classList : list string) (childNodes : list Node)
| Text (uid : nat) (data : string)
| Comment (uid : nat) (data : string).

Definition ELEMENT_NODE : Z := 1.
Definition TEXT_NODE : Z := 3.
Definition COMMENT_NODE : Z := 8.

Definition nodeType (n : Node) : Z :=
  match n with
  | Element _ _ _ _ _ _ => ELEMENT_NODE
  | Text _ _ => TEXT_NODE
  | Comment _ _ => COMMENT_NODE
  end.

Definition nodeUid (n : Node) : nat :=
  match n with
  | Element u _ _ _ _ _ => u
  | Text u _ => u
  | Comment u _ => u
  end.

Definition childNodesOf (n : Node) : list Node :=
  match n with
  | Element _ _ _ _ _ cs => cs
  | _ => []
  end.

(** Descendants of a node in tree order (preorder, depth first), the node
    itself excluded. *)
Fixpoint descendants (n : Node) : list Node :=
  match n with
  | Element _ _ _ _ _ cs =>
      (fix forest (l : list Node) : list Node :=
         match l with
         | [] => []
         | c :: l' => c :: descendants c ++ forest l'
         end) cs
  | _ => []
  end.

(** The nodes of a forest in tree order, roots included. *)
Definition forestNodes (roots : list Node) : list Node :=
  flat_map (fun r => r :: descendants r) roots.

(** ** JavaScript values handed to the functions *)

Inductive JSValue : Type :=
| JSUndefined
| JSNull
| JSString (s : string)
| JSNodeRef (n : Node).

Definition instanceofHTMLElement (v : JSValue) : bool :=
  match v with
  | JSNodeRef (Element _ HTMLElementI _ _ _ _) => true
  | _ => false
  end.

(** JavaScript numbers, as far as the code compares them: the finite ones
    are rationals, which is exact for sums compared with zero. *)
Inductive JSNumber : Type :=
| NaN
| Infinity (negative : bool)
| Num (q : Q).

(** ** The host *)

Record CSSStyleDeclaration : Type := mkStyle {
  display : string;
  visibility : string;
  opacity : string
}.

Record DOMRect : Type := mkRect {
  left : Q;
  top : Q;
  width : Q;
  height : Q
}.

(** What the browser answers about the page at the moment of a call: the
    selector engine, connectivity, layout and the viewport. *)
Record Host : Type := mkHost {
  matchesSelector : string -> Node -> bool;
  isConnected : Node -> bool;
  offsetWidth : Node -> Z;
  offsetHeight : Node -> Z;
  getComputedStyle : Node -> CSSStyleDeclaration;
  getBoundingClientRect : Node -> DOMRect;
  innerWidth : Z;
  innerHeight : Z
}.

(** ** Mutation records and observers *)

Inductive MutationType : Type :=
| attributes
| characterData
| childList.

Record MutationRecord : Type := mkRecord {
  type : MutationType;
  addedNodes : list Node;
  removedNodes : list Node
}.

Record ObserverConfig : Type := mkConfig {
  cfgChildList : bool;
  cfgSubtree : bool;
  cfgAttributes : bool;
  cfgCharacterData : bool
}.

Inductive ObserveTarget : Type :=
| TargetNode (n : Node)
| TargetDocumentBody.

(** The closure given to [new MutationObserver], with the variables it
    captures. *)
Inductive ObserverCallback : Type :=
| OnNewElementHandler (selector : string) (callback : nat)
                      (stopOnFirstFind : bool)
| WaitForElementHandler (selector : string) (promise : nat).

Record Observer : Type := mkObserver {
  handler : ObserverCallback;
  observing : option (ObserveTarget * ObserverConfig);
  recordQueue : list MutationRecord
}.

(** ** Promises, console and the world *)

Record Promise : Type := mkPromise {
  settled : option JSValue;
  resolveCalls : list JSValue
}.

Inductive ConsoleEntry : Type :=
| ConsoleError (message : string)
| ConsoleLog (message : string) (arg : Node).

Inductive Query : Type :=
| QMatches (n : Node) (selector : string)
| QQuerySelector (n : Node) (selector : string)
| QQuerySelectorAll (n : Node) (selector : string)
| QDocumentQuerySelector (selector : string).

Record World : Type := mkWorld {
  document : list Node;
  console : list ConsoleEntry;
  callbackLog : list (nat * Node);
  queryLog : list Query;
  observers : list Observer;
  promises : list Promise
}.

(** ** A monad for function bodies: state passing with early [return] *)

Inductive Completion (R A : Type) : Type :=
| Normal (a : A)
| Return (r : R).
Arguments Normal {R A} a.
Arguments Return {R A} r.

Definition Js (R A : Type) : Type := World -> Completion R A * World.

Definition ret {R A : Type} (a : A) : Js R A := fun w => (Normal a, w).

Definition bind {R A B : Type} (m : Js R A) (k : A -> Js R B) : Js R B :=
  fun w =>
    match m w with
    | (Normal a, w') => k a w'
    | (Return r, w') => (Return r, w')
    end.

Definition return_ {R A : Type} (r : R) : Js R A := fun w => (Return r, w).

Definition modify {R : Type} (f : World -> World) : Js R unit :=
  fun w => (Normal tt, f w).

Notation "'let!' x ':=' m 'in' k" := (bind m (fun x => k))
  (at level 10, x name, m at level 100, k at level 200).
Notation "m >> k" := (bind m (fun _ => k))
  (at level 62, right associativity).

(** Calling a function: the value of its [return], or [undefined] when the
    body runs to its end. *)
Definition runBody {R : Type} (undefined : R) (body : Js R unit)
    (w : World) : R * World :=
  match body w with
  | (Normal _, w') => (undefined, w')
  | (Return r, w') => (r, w')
  end.

(** A call made for its effects only. *)
Definition invoke {R : Type} (body : Js unit unit) : Js R unit :=
  fun w => (Normal tt, snd (runBody tt body w)).

(** [for (const x of xs) body]: a [return] in the body leaves the loop and
    the function. *)
Fixpoint forOf {R A : Type} (xs : list A) (body : A -> Js R unit) : Js R unit :=
  match xs with
  | [] => ret tt
  | x :: xs' => body x >> forOf xs' body
  end.

(** [xs.forEach(f)]: each [f x] is a call of its own. *)
Fixpoint forEach {R A : Type} (xs : list A) (f : A -> Js unit unit) : Js R unit :=
  match xs with
  | [] => ret tt
  | x :: xs' => invoke (f x) >> forEach xs' f
  end.

(** ** World updates *)

Definition setDocument (d : list Node) (w : World) : World :=
  mkWorld d (console w) (callbackLog w) (queryLog w) (observers w) (promises w).
Definition setConsole (c : list ConsoleEntry) (w : World) : World :=
  mkWorld (document w) c (callbackLog w) (queryLog w) (observers w) (promises w).
Definition setCallbackLog (l : list (nat * Node)) (w : World) : World :=
  mkWorld (document w) (console w) l (queryLog w) (observers w) (promises w).
Definition setQueryLog (l : list Query) (w : World) : World :=
  mkWorld (document w) (console w) (callbackLog w) l (observers w) (promises w).
Definition setObservers (l : list Observer) (w : World) : World :=
  mkWorld (document w) (console w) (callbackLog w) (queryLog w) l (promises w).
Definition setPromises (l : list Promise) (w : World) : World :=
  mkWorld (document w) (console w) (callbackLog w) (queryLog w) (observers w) l.

Definition logQuery (q : Query) (w : World) : World :=
  setQueryLog (queryLog w ++ [q]) w.

(** ** Host operations *)

Definition consoleError {R : Type} (message : string) : Js R unit :=
  modify (fun w => setConsole (console w ++ [ConsoleError message]) w).

Definition consoleLog {R : Type} (message : string) (arg : Node) : Js R unit :=
  modify (fun w => setConsole (console w ++ [ConsoleLog message arg]) w).

(** The caller's callback is opaque: a call is recorded with its argument
    and changes nothing else. *)
Definition call {R : Type} (callback : nat) (arg : Node) : Js R unit :=
  modify (fun w => setCallbackLog (callbackLog w ++ [(callback, arg)]) w).

Definition isElement (n : Node) : bool := (nodeType n =? ELEMENT_NODE)%Z.

Definition toJS (o : option Node) : JSValue :=
  match o with
  | Some n => JSNodeRef n
  | None => JSNull
  end.

Definition newMutationObserver {R : Type} (cb : ObserverCallback) : Js R nat :=
  fun w => (Normal (length (observers w)),
            setObservers (observers w ++ [mkObserver cb None []]) w).

Definition alterObserver (f : Observer -> Observer) (obs : nat) (w : World) : World :=
  setObservers (alter f obs (observers w)) w.

Definition observe {R : Type} (obs : nat) (target : ObserveTarget)
    (config : ObserverConfig) : Js R unit :=
  modify (alterObserver
            (fun o => mkObserver (handler o) (Some (target, config)) (recordQueue o)) obs).

(** [observer.disconnect()]: the registration is dropped and the pending
    records are discarded. *)
Definition disconnectObserver (o : Observer) : Observer :=
  mkObserver (handler o) None [].

Definition disconnect {R : Type} (obs : nat) : Js R unit :=
  modify (alterObserver disconnectObserver obs).

Definition pendingRecords (obs : nat) (w : World) : list MutationRecord :=
  match observers w !! obs with
  | Some o => recordQueue o
  | None => []
  end.

Definition clearQueue (o : Observer) : Observer :=
  mkObserver (handler o) (observing o) [].

(** [observer.takeRecords()]: the pending records, which leave the queue. *)
Definition takeRecords {R : Type} (obs : nat) : Js R (list MutationRecord) :=
  fun w => (Normal (pendingRecords obs w), alterObserver clearQueue obs w).

Definition newPromise {R : Type} : Js R nat :=
  fun w => (Normal (length (promises w)),
            setPromises (promises w ++ [mkPromise None []]) w).

(** [resolve(v)]: only the first call settles the promise. *)
Definition resolvePromise (v : JSValue) (p : Promise) : Promise :=
  mkPromise (match settled p with Some v0 => Some v0 | None => Some v end)
            (resolveCalls p ++ [v]).

Definition resolve {R : Type} (p : nat) (v : JSValue) : Js R unit :=
  modify (fun w => setPromises (alter (resolvePromise v) p (promises w)) w).

(** ** [parseFloat] *)

(** ECMAScript's [parseFloat] on ASCII input: leading white space is
    dropped, then the longest prefix that is a decimal literal is read
    (sign, [Infinity] or digits with an optional fraction and exponent);
    [NaN] when there is none.  The value is kept exact; a literal that a
    double would round to zero does not occur among the serialised numbers
    a computed style holds. *)

Definition isWhiteSpace (c : ascii) : bool :=
  let n := nat_of_ascii c in
  (n =? 32) || ((9 <=? n) && (n <=? 13)).

Fixpoint trimStart (s : string) : string :=
  match s with
  | String c s' => if isWhiteSpace c then trimStart s' else s
  | EmptyString => s
  end.

Definition digitValue (c : ascii) : option Z :=
  let n := nat_of_ascii c in
  if (48 <=? n) && (n <=? 57) then Some (Z.of_nat (n - 48)) else None.

(** Reads a run of decimal digits onto [acc]: the value, the number of
    digits read and the rest of the input. *)
Fixpoint readDigits (s : string) (acc : Z) (count : nat) : Z * nat * string :=
  match s with
  | String c s' =>
      match digitValue c with
      | Some d => readDigits s' (10 * acc + d)%Z (S count)
      | None => (acc, count, s)
      end
  | EmptyString => (acc, count, s)
  end.

Definition readSign (s : string) : bool * string :=
  match s with
  | String "-" r => (true, r)
  | String "+" r => (false, r)
  | _ => (false, s)
  end.

Definition readExponent (s : string) : Z :=
  match s with
  | String c r =>
      if (c =? "e")%char || (c =? "E")%char then
        let '(neg, r') := readSign r in
        let '(e, n, _) := readDigits r' 0%Z 0 in
        if n =? 0 then 0%Z else if neg then (- e)%Z else e
      else 0%Z
  | EmptyString => 0%Z
  end.

Definition parseFloat (input : string) : JSNumber :=
  let '(neg, s) := readSign (trimStart input) in
  if String.prefix "Infinity" s then Infinity neg else
  let '(ip, ic, s1) := readDigits s 0%Z 0 in
  let '(mant, fc, s2) :=
    match s1 with
    | String "." r => readDigits r ip 0
    | _ => (ip, 0, s1)
    end in
  if ic + fc =? 0 then NaN else
  let magnitude :=
    (inject_Z mant / inject_Z (10 ^ Z.of_nat fc) * (10 # 1) ^ readExponent s2)%Q in
  Num (if neg then (- magnitude)%Q else magnitude).

(** [x === 0] for a number [x]. *)
Definition isZero (x : JSNumber) : bool :=
  match x with
  | Num q => Qeq_bool q 0
  | _ => false
  end.

Section WithHost.

Variable h : Host.

(** ** Selector queries, answered by the host's engine *)

Definition matchingNodes (selector : string) (candidates : list Node) : list Node :=
  List.filter (fun n => isElement n && matchesSelector h selector n) candidates.

(** [node.matches(selector)] *)
Definition matches {R : Type} (node : Node) (selector : string) : Js R bool :=
  fun w => (Normal (matchesSelector h selector node),
            logQuery (QMatches node selector) w).

(** [node.querySelectorAll(selector)]: the matching descendants in tree
    order. *)
Definition querySelectorAll {R : Type} (node : Node) (selector : string)
    : Js R (list Node) :=
  fun w => (Normal (matchingNodes selector (descendants node)),
            logQuery (QQuerySelectorAll node selector) w).

(** [node.querySelector(selector)]: the first of them, or [null]. *)
Definition querySelector {R : Type} (node : Node) (selector : string)
    : Js R (option Node) :=
  fun w => (Normal (head (matchingNodes selector (descendants node))),
            logQuery (QQuerySelector node selector) w).

(** [document.querySelector(selector)] on the document as it is now. *)
Definition documentQuerySelector {R : Type} (selector : string)
    : Js R (option Node) :=
  fun w => (Normal (head (matchingNodes selector (forestNodes (document w)))),
            logQuery (QDocumentQuerySelector selector) w).

(** ** [waitForElement] *)

(** The observer's callback (lines 38-43); [observer] is the observer the
    closure belongs to. *)
Definition waitForElementHandler (selector : string) (promise : nat)
    (mutations : list MutationRecord) (observer : nat) : Js unit unit :=
  let! found := documentQuerySelector selector in
  match found with
  | Some _ =>
      disconnect observer >>
      let! element := documentQuerySelector selector in
      resolve promise (toJS element)
  | None => ret tt
  end.

(** The promise executor (lines 33-49). *)
Definition waitForElementExecutor (selector : string) (promise : nat)
    : Js unit unit :=
  let! found := documentQuerySelector selector in
  match found with
  | Some _ =>
      let! element := documentQuerySelector selector in
      resolve promise (toJS element) >>
      return_ tt
  | None => ret tt
  end >>
  let! observer := newMutationObserver (WaitForElementHandler selector promise) in
  observe observer TargetDocumentBody (mkConfig true true false false).

Definition waitForElementBody (selector : string) : Js nat unit :=
  let! promise := newPromise in
  invoke (waitForElementExecutor selector promise) >>
  return_ promise.

(** A call of [waitForElement]: the promise it returns and the world it
    leaves. *)
Definition waitForElement (selector : string) (w : World) : nat * World :=
  runBody 0 (waitForElementBody selector) w.

(** ** [onNewElement] *)

(** The body of the loop over [mutation.addedNodes] (lines 85-112). *)
Definition processAddedNode (selector : string) (callback : nat)
    (stopOnFirstFind : bool) (observerInstance : nat) (node : Node)
    : Js unit unit :=
  if (nodeType node =? ELEMENT_NODE)%Z then
    let! selfMatch := matches node selector in
    (if selfMatch then
       call callback node >>
       (if stopOnFirstFind then
          disconnect observerInstance >>
          return_ tt
        else ret tt)
     else ret tt) >>
    (if stopOnFirstFind then
       let! matchingDescendant := querySelector node selector in
       match matchingDescendant with
       | Some descendant =>
           call callback descendant >>
           disconnect observerInstance >>
           return_ tt
       | None => ret tt
       end
     else
       let! matchingDescendants := querySelectorAll node selector in
       forEach matchingDescendants (fun descendant => call callback descendant))
  else ret tt.

Definition isChildList (t : MutationType) : bool :=
  match t with
  | childList => true
  | _ => false
  end.

(** The body of the loop over [mutationsList] (lines 83-118). *)
Definition processMutation (selector : string) (callback : nat)
    (stopOnFirstFind : bool) (observerInstance : nat) (mutation : MutationRecord)
    : Js unit unit :=
  (if isChildList (type mutation) && (0 <? length (addedNodes mutation)) then
     forOf (addedNodes mutation)
           (processAddedNode selector callback stopOnFirstFind observerInstance)
   else ret tt) >>
  (if stopOnFirstFind then
     let! records := takeRecords observerInstance in
     if length records =? 0 then return_ tt else ret tt
   else ret tt).

(** The observer's callback (lines 81-120). *)
Definition onNewElementHandler (selector : string) (callback : nat)
    (stopOnFirstFind : bool) (mutationsList : list MutationRecord)
    (observerInstance : nat) : Js unit unit :=
  forOf mutationsList
        (processMutation selector callback stopOnFirstFind observerInstance).

Definition observerConfig : ObserverConfig := mkConfig true true false false.

(** The body of [onNewElement] (lines 61-126); [null] is [None].  The
    outer [match] only extracts the node from the value: a value that is
    not a node fails [instanceof HTMLElement] as well. *)
Definition onNewElementBody (targetNode : JSValue) (selector : string)
    (callback : nat) (stopOnFirstFind : bool) : Js (option nat) unit :=
  match targetNode with
  | JSNodeRef target =>
      (if negb (instanceofHTMLElement targetNode) then
         consoleError "Invalid targetNode provided. Must be an HTMLElement." >>
         return_ None
       else ret tt) >>
      (if stopOnFirstFind then
         let! existingElement := querySelector target selector in
         match existingElement with
         | Some existing =>
             call callback existing >>
             return_ None
         | None => ret tt
         end
       else ret tt) >>
      let! observer :=
        newMutationObserver (OnNewElementHandler selector callback stopOnFirstFind) in
      observe observer (TargetNode target) observerConfig >>
      consoleLog ("MutationObserver started observing for '" ++ selector ++ "' within")
                 target >>
      return_ (Some observer)
  | _ =>
      consoleError "Invalid targetNode provided. Must be an HTMLElement." >>
      return_ None
  end.

(** A call of [onNewElement]: the observer it returns (or [null]) and the
    world it leaves. *)
Definition onNewElement (targetNode : JSValue) (selector : string)
    (callback : nat) (stopOnFirstFind : bool) (w : World) : option nat * World :=
  runBody None (onNewElementBody targetNode selector callback stopOnFirstFind) w.

(** ** The host's side of a [MutationObserver] *)

(** Whether an observer registered with [config] is sent a record. *)
Definition interested (config : ObserverConfig) (r : MutationRecord) : bool :=
  match type r with
  | childList => cfgChildList config
  | attributes => cfgAttributes config
  | characterData => cfgCharacterData config
  end.

(** Queueing the records of a change for an observer; a disconnected
    observer is not sent any. *)
Definition enqueueRecords (records : list MutationRecord) (o : Observer) : Observer :=
  match observing o with
  | Some (_, config) =>
      mkObserver (handler o) (observing o)
                 (recordQueue o ++ List.filter (interested config) records)
  | None => o
  end.

Definition invokeHandler (cb : ObserverCallback) (records : list MutationRecord)
    (obs : nat) (w : World) : World :=
  match cb with
  | OnNewElementHandler selector callback stopOnFirstFind =>
      snd (runBody tt (onNewElementHandler selector callback stopOnFirstFind
                                           records obs) w)
  | WaitForElementHandler selector promise =>
      snd (runBody tt (waitForElementHandler selector promise records obs) w)
  end.

(** Notifying an observer at a microtask checkpoint: when records are
    pending, they are taken off the queue and handed to the callback as one
    batch. *)
Definition notify (obs : nat) (w : World) : World :=
  match observers w !! obs with
  | Some o =>
      match recordQueue o with
      | [] => w
      | records =>
          invokeHandler (handler o) records obs (alterObserver clearQueue obs w)
      end
  | None => w
  end.

(** What happens to a session between two steps of the code: the page
    changes the document (and the host records the change), the host
    delivers what is pending, or the owner of the observer disconnects
    it. *)
Inductive HostEvent : Type :=
| DomChange (document' : list Node) (records : list MutationRecord)
| Microtask
| Disconnect.

Definition hostStep (obs : nat) (w : World) (ev : HostEvent) : World :=
  match ev with
  | DomChange document' records =>
      alterObserver (enqueueRecords records) obs (setDocument document' w)
  | Microtask => notify obs w
  | Disconnect => alterObserver disconnectObserver obs w
  end.

Definition runEvents (obs : nat) (events : list HostEvent) (w : World) : World :=
  fold_left (hostStep obs) events w.

(** ** [isElementEffectivelyHidden] (lines 133-164) *)

Definition isElementEffectivelyHidden (element : JSValue) : bool :=
  match element with
  | JSNodeRef el =>
      if negb (isConnected h el) then true else
      if (offsetWidth h el =? 0)%Z || (offsetHeight h el =? 0)%Z then true else
      let computedStyle := getComputedStyle h el in
      if (display computedStyle =? "none")%string
         || (visibility computedStyle =? "hidden")%string
         || (visibility computedStyle =? "collapse")%string
         || isZero (parseFloat (opacity computedStyle))
      then true else
      let rect := getBoundingClientRect h el in
      if Qeq_bool (width rect) 0
         || Qeq_bool (height rect) 0
         || Qle_bool (left rect + width rect) 0
         || Qle_bool (top rect + height rect) 0
         || Qle_bool (inject_Z (innerWidth h)) (left rect)
         || Qle_bool (inject_Z (innerHeight h)) (top rect)
      then true else
      false
  | _ => true
  end.

End WithHost.

(** ** Concrete pages used in the examples *)

(** A selector engine for simple selectors: [.class], [#id], [*] and a tag
    name. *)
Definition simpleMatches (selector : string) (n : Node) : bool :=
  match n with
  | Element _ _ tag ident classes _ =>
      match selector with
      | String "." cls => existsb (String.eqb cls) classes
      | String "#" i => (i =? ident)%string
      | "*" => true
      | _ => (selector =? tag)%string
      end
  | _ => false
  end.

Definition div (uid : nat) (children : list Node) : Node :=
  Element uid HTMLElementI "div" "" [] children.

Definition itemSpan (uid : nat) : Node :=
  Element uid HTMLElementI "span" "" ["item"] [].

(** Root R of the scenarios: an element with no children. *)
Definition emptyRoot : Node := div 1 [].

(** [<div><span class="item"/><span class="item"/></div>] *)
Definition wrapper : Node := div 10 [itemSpan 11; itemSpan 12].

Definition visibleStyle : CSSStyleDeclaration := mkStyle "block" "visible" "1".

(** A page with a 1280x720 viewport where nodes 100 and up are detached
    and every box is 100x100 at (20, 30), except: node 2 is [display:none],
    node 3 lies above the viewport. *)
Definition pageHost : Host :=
  mkHost simpleMatches
         (fun n => nodeUid n <? 100)
         (fun _ => 100%Z)
         (fun _ => 100%Z)
         (fun n => if nodeUid n =? 2 then mkStyle "none" "visible" "1" else visibleStyle)
         (fun n => if nodeUid n =? 3 then mkRect 20 (-200) 100 100
                   else mkRect 20 30 100 100)
         1280 720.

(** A host whose selector engine would accept any node, text and comments
    included. *)
Definition credulousHost : Host :=
  mkHost (fun _ _ => true) (fun _ => true) (fun _ => 100%Z) (fun _ => 100%Z)
         (fun _ => visibleStyle) (fun _ => mkRect 20 30 100 100) 1280 720.

Definition emptyWorld : World := mkWorld [] [] [] [] [] [].

Definition added (nodes : list Node) : MutationRecord :=
  mkRecord childList nodes [].

(** ** The specification's vocabulary *)

Section Vocabulary.

Variable h : Host.

(** A node with everything below it. *)
Definition subtree (n : Node) : list Node := n :: descendants n.

(** The matches an added node contributes: itself when it matches, then
    every matching descendant; nothing for a node that is not an
    element. *)
Definition nodeMatches (selector : string) (node : Node) : list Node :=
  if isElement node then
    (if matchesSelector h selector node then [node] else [])
      ++ matchingNodes h selector (descendants node)
  else [].

Definition recordMatches (selector : string) (r : MutationRecord) : list Node :=
  match type r with
  | childList => flat_map (nodeMatches selector) (addedNodes r)
  | _ => []
  end.

(** The matches of a notification batch, in the order of its records and of
    their added nodes. *)
Definition batchMatches (selector : string) (batch : list MutationRecord) : list Node :=
  flat_map (recordMatches selector) batch.

(** The nodes a batch reports as added. *)
Definition batchAddedNodes (batch : list MutationRecord) : list Node :=
  flat_map addedNodes (List.filter (fun r => isChildList (type r)) batch).

(** Dropping the added nodes that are not elements from a record. *)
Definition elementsOnly (r : MutationRecord) : MutationRecord :=
  mkRecord (type r) (List.filter isElement (addedNodes r)) (removedNodes r).

(** One insertion batch: the page changes, then the host delivers. *)
Definition insertionBatch (b : list Node * list MutationRecord) : list HostEvent :=
  [DomChange (fst b) (snd b); Microtask].

(** The records the page's changes produce over a run of events. *)
Definition eventRecords (events : list HostEvent) : list MutationRecord :=
  flat_map (fun ev => match ev with
                      | DomChange _ records => records
                      | _ => []
                      end) events.

(** The documents a run of events goes through. *)
Definition eventDocuments (events : list HostEvent) : list (list Node) :=
  flat_map (fun ev => match ev with
                      | DomChange d _ => [d]
                      | _ => []
                      end) events.

(** The four conditions of the visibility oracle, in the specification's
    words. *)
Definition absentOrDetached (element : JSValue) : Prop :=
  match element with
  | JSNodeRef el => isConnected h el = false
  | _ => True
  end.

Definition zeroRenderedBox (element : JSValue) : Prop :=
  exists el, element = JSNodeRef el /\
    (offsetWidth h el = 0%Z \/ offsetHeight h el = 0%Z).

Definition hiddenByStyle (element : JSValue) : Prop :=
  exists el, element = JSNodeRef el /\
    let style := getComputedStyle h el in
    display style = "none" \/ visibility style = "hidden"
    \/ visibility style = "collapse"
    \/ exists q, parseFloat (opacity style) = Num q /\ (q == 0)%Q.

Definition outsideViewport (element : JSValue) : Prop :=
  exists el, element = JSNodeRef el /\
    let rect := getBoundingClientRect h el in
    (width rect == 0 \/ height rect == 0
     \/ left rect + width rect <= 0
     \/ top rect + height rect <= 0
     \/ inject_Z (innerWidth h) <= left rect
     \/ inject_Z (innerHeight h) <= top rect)%Q.

(** A session as [onNewElement] leaves it: observer [obs] carries the
    handler for these arguments and is registered on the target. *)
Definition watching (obs : nat) (selector : string) (callback : nat)
    (stopOnFirstFind : bool) (w : World) : Prop :=
  exists o, observers w !! obs = Some o
    /\ handler o = OnNewElementHandler selector callback stopOnFirstFind.

(** How one world differs from an earlier one when the code has made the
    callbacks [calls] and, to the observers, [change]; the log of selector
    queries is left out. *)
Definition evolves (calls : list (nat * Node))
    (change : list Observer -> list Observer) (w w' : World) : Prop :=
  document w' = document w
  /\ console w' = console w
  /\ callbackLog w' = callbackLog w ++ calls
  /\ observers w' = change (observers w)
  /\ promises w' = promises w.

(** Callbacks for the nodes [ns] and nothing else. *)
Definition reports (callback : nat) (ns : list Node) (w w' : World) : Prop :=
  evolves (map (pair callback) ns) id w w'.

(** No callback; the pending records of [obs] may have been taken. *)
Definition calm (obs : nat) (w w' : World) : Prop :=
  evolves [] id w w' \/ evolves [] (alter clearQueue obs) w w'.

(** One callback, for [e], after which [obs] is disconnected. *)
Definition fired (callback obs : nat) (e : Node) (w w' : World) : Prop :=
  evolves [(callback, e)] (alter disconnectObserver obs) w w'.

(** An observer that is disconnected with nothing pending (or does not
    exist). *)
Definition inert (obs : nat) (w : World) : Prop :=
  match observers w !! obs with
  | Some o => observing o = None /\ recordQueue o = []
  | None => True
  end.

(** The only trace an event leaves on a world whose observer is inert. *)
Definition documentAfter (ev : HostEvent) (w : World) : World :=
  match ev with
  | DomChange document' _ => setDocument document' w
  | _ => w
  end.

(** A stop-after-first session that began when the callback log was
    [base]: it has made no callback yet, or it has made exactly one and its
    observer is disconnected with nothing pending. *)
Definition stopSession (obs : nat) (selector : string) (callback : nat)
    (base : list (nat * Node)) (w : World) : Prop :=
  exists o, observers w !! obs = Some o
    /\ handler o = OnNewElementHandler selector callback true
    /\ (callbackLog w = base
        \/ exists e, callbackLog w = base ++ [(callback, e)]
                     /\ observing o = None /\ recordQueue o = []).

(** The first element of the document that matches, if any. *)
Definition documentMatch (selector : string) (d : list Node) : option Node :=
  head (matchingNodes h selector (forestNodes d)).

Definition pendingPromise : Promise := mkPromise None [].

(** A promise settled by its one [resolve] call, made with [e]. *)
Definition resolvedWith (e : Node) : Promise :=
  mkPromise (Some (JSNodeRef e)) [JSNodeRef e].

(** A wait that has not resolved: its observer is registered on the body
    for child-list changes in the whole subtree. *)
Definition waitPending (obs p : nat) (selector : string) (w : World) : Prop :=
  exists o, observers w !! obs = Some o
    /\ handler o = WaitForElementHandler selector p
    /\ observing o = Some (TargetDocumentBody, mkConfig true true false false)
    /\ promises w !! p = Some pendingPromise.

(** A wait at any moment of its life: not resolved, or resolved exactly
    once with a matching element and its observer disconnected. *)
Definition waitSession (obs p : nat) (selector : string) (w : World) : Prop :=
  exists o, observers w !! obs = Some o
    /\ handler o = WaitForElementHandler selector p
    /\ (promises w !! p = Some pendingPromise
        \/ exists e, promises w !! p = Some (resolvedWith e)
                     /\ isElement e = true
                     /\ matchesSelector h selector e = true
                     /\ observing o = None /\ recordQueue o = []).

End Vocabulary.

(** ** Platform sniffing *)

(** [s.indexOf(searchString)], counted from position [k] of the original
    string: the first position at which [searchString] occurs, or [-1]. *)
Fixpoint indexOfFrom (s searchString : string) (k : Z) : Z :=
  if String.prefix searchString s then k else
  match s with
  | EmptyString => (-1)%Z
  | String _ s' => indexOfFrom s' searchString (k + 1)%Z
  end.

Definition indexOf (s searchString : string) : Z := indexOfFrom s searchString 0%Z.

Record Navigator : Type := mkNavigator {
  platform : string
}.

(** [isMacOS] (lines 3-5). *)
Definition isMacOS (navigator : Navigator) : bool :=
  (indexOf (platform navigator) "Mac" >? -1)%Z.

(** ** More vocabulary *)

(** A point strictly inside a rectangle, and strictly inside the
    viewport. *)
Definition insideBox (rect : DOMRect) (x y : Q) : Prop :=
  (left rect < x /\ x < left rect + width rect
   /\ top rect < y /\ y < top rect + height rect)%Q.

Definition insideViewport (h : Host) (x y : Q) : Prop :=
  (0 < x /\ x < inject_Z (innerWidth h)
   /\ 0 < y /\ y < inject_Z (innerHeight h))%Q.

(** Records of changes other than to child lists: attribute and character
    data changes. *)
Definition noChildListRecord (records : list MutationRecord) : Prop :=
  Forall (fun r => type r <> childList) records.

(** A run in which the owner never disconnects the observer. *)
Definition neverDisconnected (events : list HostEvent) : Prop :=
  Forall (fun ev => ev <> Disconnect) events.

(** An observer registered for child-list changes in a subtree, with
    nothing pending. *)
Definition idleChildListObserver (obs : nat) (w : World) : Prop :=
  exists o t, observers w !! obs = Some o
    /\ observing o = Some (t, mkConfig true true false false)
    /\ recordQueue o = [].

(** A session that is still registered on its target (and, in
    stop-after-first mode, has made no callback yet), or a stop-after-first
    session that ended with its one callback. *)
Definition registeredOrDone (obs : nat) (selector : string) (callback : nat)
    (stop : bool) (target : Node) (base : list (nat * Node)) (w : World) : Prop :=
  exists o, observers w !! obs = Some o
    /\ handler o = OnNewElementHandler selector callback stop
    /\ ((observing o = Some (TargetNode target, observerConfig)
         /\ (stop = true -> callbackLog w = base))
        \/ (stop = true
            /\ exists e, callbackLog w = base ++ [(callback, e)]
                         /\ observing o = None /\ recordQueue o = [])).



(** The nodes of the subtrees of the added element nodes of a batch, one
    subtree after the other. *)
Definition addedSubtrees (batch : list MutationRecord) : list Node :=
  flat_map subtree (List.filter isElement (batchAddedNodes batch)).

(** A batch whose added subtrees do not overlap and hold exactly one
    matching element, [e]. *)
Definition oneNewMatch (h : Host) (selector : string) (batch : list MutationRecord)
    (e : Node) : Prop :=
  List.NoDup (addedSubtrees batch)
  /\ forall n, (In n (addedSubtrees batch) /\ isElement n = true
                /\ matchesSelector h selector n = true) <-> n = e.

(** The document in which a run of insertion batches ends. *)
Definition lastDocument (bs : list (list Node * list MutationRecord)) (w : World)
    : list Node :=
  match last bs with
  | Some b => fst b
  | None => document w
  end.

(** * Properties *)

(** ** Lists, filters and the tree *)

Lemma head_filter_exists {A : Type} (p : A -> bool) (l : list A) (x : A) :
  In x l -> p x = true ->
  exists y, head (List.filter p l) = Some y /\ In y l /\ p y = true.
Proof.
  induction l as [|a l IH]; intros Hin Hp; [destruct Hin|].
  simpl. destruct (p a) eqn:Ha.
  - exists a. simpl. auto.
  - destruct Hin as [->|Hin]; [congruence|].
    destruct (IH Hin Hp) as (y & Hy & Hyl & Hpy). eauto.
Qed.

Lemma head_filter_In {A : Type} (p : A -> bool) (l : list A) (y : A) :
  head (List.filter p l) = Some y -> In y l /\ p y = true.
Proof.
  intros Hh. assert (In y (List.filter p l)) as Hin.
  { destruct (List.filter p l); simpl in Hh; inversion Hh; subst; simpl; auto. }
  apply filter_In in Hin. exact Hin.
Qed.

Lemma matchingNodes_In (h : Host) (selector : string) (l : list Node) (n : Node) :
  In n (matchingNodes h selector l) <->
  In n l /\ isElement n = true /\ matchesSelector h selector n = true.
Proof.
  unfold matchingNodes. rewrite filter_In, andb_true_iff. tauto.
Qed.

(** ** Running monadic code *)

Ltac js_unfold :=
  unfold bind, ret, return_, modify, invoke, runBody,
    consoleError, consoleLog, call, matches, querySelector, querySelectorAll,
    documentQuerySelector, newMutationObserver, observe, disconnect,
    takeRecords, newPromise, resolve in *.

Lemma bind_normal {R A B : Type} (m : Js R A) (k : A -> Js R B) (w w' : World) (a : A) :
  m w = (Normal a, w') -> bind m k w = k a w'.
Proof. intros H. unfold bind. rewrite H. reflexivity. Qed.

(** ** The precondition check and the fast path of [onNewElement] *)

Lemma onNewElement_rejects (h : Host) (targetNode : JSValue) (selector : string)
    (callback : nat) (stopOnFirstFind : bool) (w : World) :
  instanceofHTMLElement targetNode = false ->
  onNewElement h targetNode selector callback stopOnFirstFind w
  = (None,
     setConsole (console w ++
       [ConsoleError "Invalid targetNode provided. Must be an HTMLElement."]) w).
Proof.
  intros Hno. unfold onNewElement, onNewElementBody.
  destruct targetNode as [| |s|n]; try reflexivity.
  js_unfold. rewrite Hno. reflexivity.
Qed.

(** C3, as amended: a call of [onNewElement] whose [targetNode] is not an
    [HTMLElement] (whether or not it is connected) emits the diagnostic on
    the console, registers no observer, invokes no callback and returns
    [null]. *)
Theorem C3_non_HTMLElement_rejected (h : Host) (targetNode : JSValue)
    (selector : string) (callback : nat) (stopOnFirstFind : bool) (w : World) :
  instanceofHTMLElement targetNode = false ->
  let result := onNewElement h targetNode selector callback stopOnFirstFind w in
  fst result = None
  /\ console (snd result)
     = console w ++ [ConsoleError "Invalid targetNode provided. Must be an HTMLElement."]
  /\ observers (snd result) = observers w
  /\ callbackLog (snd result) = callbackLog w
  /\ queryLog (snd result) = queryLog w.
Proof.
  intros Hno result. subst result.
  rewrite onNewElement_rejects by exact Hno. simpl. auto.
Qed.

Lemma C3_non_HTMLElement_rejected_witness :
  instanceofHTMLElement (JSString "#root") = false
  /\ fst (onNewElement pageHost (JSString "#root") ".item" 7 true emptyWorld) = None
  /\ observers (snd (onNewElement pageHost (JSString "#root") ".item" 7 true emptyWorld)) = [].
Proof.
  split; [reflexivity|].
  pose proof (C3_non_HTMLElement_rejected pageHost (JSString "#root") ".item" 7 true
                emptyWorld eq_refl) as H.
  simpl in H. destruct H as (H1 & _ & H3 & _). split; assumption.
Defined.

(** C3 as stated fails: a detached [HTMLElement] passes the check.  The
    element [div 100 []] is not connected on [pageHost], yet a continuous
    watch on it registers an observer and returns it, and a
    stop-after-first watch on the detached [wrapper] invokes the
    callback. *)
Lemma C3_detached_element_accepted :
  isConnected pageHost (div 100 []) = false
  /\ fst (onNewElement pageHost (JSNodeRef (div 100 [])) ".item" 7 false emptyWorld)
     = Some 0
  /\ length (observers
       (snd (onNewElement pageHost (JSNodeRef (div 100 [])) ".item" 7 false emptyWorld)))
     = 1
  /\ isConnected pageHost (div 100 [itemSpan 101]) = false
  /\ callbackLog
       (snd (onNewElement pageHost (JSNodeRef (div 100 [itemSpan 101])) ".item" 7 true
               emptyWorld))
     = [(7, itemSpan 101)].
Proof. repeat split; reflexivity. Qed.

(** C4: with [stopOnFirstFind] set, on an [HTMLElement] root below which
    some element matches the selector, [onNewElement] makes one
    [querySelector] call on the root, invokes the callback once, during the
    call, with the element that query found (a matching descendant of the
    root), registers no observer and returns [null]. *)
Theorem C4_fast_path (h : Host) (target : Node) (selector : string)
    (callback : nat) (w : World) :
  instanceofHTMLElement (JSNodeRef target) = true ->
  (exists d, In d (descendants target) /\ isElement d = true
             /\ matchesSelector h selector d = true) ->
  exists e,
    head (matchingNodes h selector (descendants target)) = Some e
    /\ In e (descendants target) /\ isElement e = true
    /\ matchesSelector h selector e = true
    /\ onNewElement h (JSNodeRef target) selector callback true w
       = (None,
          setCallbackLog (callbackLog w ++ [(callback, e)])
            (logQuery (QQuerySelector target selector) w)).
Proof.
  intros Hel (d & Hd & Hde & Hdm).
  destruct (head_filter_exists
              (fun n => isElement n && matchesSelector h selector n)
              (descendants target) d Hd) as (e & He & Hin & Hp).
  { rewrite Hde, Hdm. reflexivity. }
  apply andb_true_iff in Hp. destruct Hp as [Hpe Hpm].
  exists e. repeat split; try assumption.
  unfold onNewElement, onNewElementBody. js_unfold.
  rewrite Hel. simpl. unfold matchingNodes. rewrite He. reflexivity.
Qed.

Lemma C4_fast_path_witness :
  exists e,
    In e (descendants wrapper)
    /\ onNewElement pageHost (JSNodeRef wrapper) ".item" 7 true emptyWorld
       = (None,
          setCallbackLog [(7, e)] (logQuery (QQuerySelector wrapper ".item") emptyWorld)).
Proof.
  destruct (C4_fast_path pageHost wrapper ".item" 7 emptyWorld eq_refl) as (e & _ & Hin & _ & _ & Hrun).
  - exists (itemSpan 12). repeat split; simpl; auto.
  - exists e. split; assumption.
Defined.

(** ** The visibility oracle *)

Lemma isZero_spec (x : JSNumber) :
  isZero x = true <-> exists q, x = Num q /\ (q == 0)%Q.
Proof.
  destruct x as [|neg|q]; simpl.
  - split; [discriminate|]. intros (q & Hq & _). discriminate.
  - split; [discriminate|]. intros (q & Hq & _). discriminate.
  - rewrite Qeq_bool_iff. split.
    + intros Hq. exists q. auto.
    + intros (q' & Hq' & Hz). inversion Hq'. subst. exact Hz.
Qed.

Section Oracle.

Variable h : Host.

(** The function as a chain of lazy disjunctions of its four checks, in
    the order in which the code makes them. *)
Lemma isElementEffectivelyHidden_checks (el : Node) :
  isElementEffectivelyHidden h (JSNodeRef el)
  = negb (isConnected h el)
    || (((offsetWidth h el =? 0)%Z || (offsetHeight h el =? 0)%Z)
    || (((display (getComputedStyle h el) =? "none")%string
         || (visibility (getComputedStyle h el) =? "hidden")%string
         || (visibility (getComputedStyle h el) =? "collapse")%string
         || isZero (parseFloat (opacity (getComputedStyle h el))))
    || (Qeq_bool (width (getBoundingClientRect h el)) 0
        || Qeq_bool (height (getBoundingClientRect h el)) 0
        || Qle_bool (left (getBoundingClientRect h el)
                     + width (getBoundingClientRect h el)) 0
        || Qle_bool (top (getBoundingClientRect h el)
                     + height (getBoundingClientRect h el)) 0
        || Qle_bool (inject_Z (innerWidth h)) (left (getBoundingClientRect h el))
        || Qle_bool (inject_Z (innerHeight h)) (top (getBoundingClientRect h el))))).
Proof.
  unfold isElementEffectivelyHidden.
  destruct (negb (isConnected h el)); [reflexivity|].
  destruct ((offsetWidth h el =? 0)%Z || (offsetHeight h el =? 0)%Z); [reflexivity|].
  cbv zeta.
  match goal with |- (if ?c then _ else _) = _ => destruct c; [reflexivity|] end.
  match goal with |- (if ?c then _ else _) = _ => destruct c; reflexivity end.
Qed.

Lemma zeroRenderedBox_node (el : Node) :
  zeroRenderedBox h (JSNodeRef el)
  <-> (offsetWidth h el =? 0)%Z || (offsetHeight h el =? 0)%Z = true.
Proof.
  unfold zeroRenderedBox. rewrite orb_true_iff, !Z.eqb_eq. split.
  - intros (el' & Heq & H). inversion Heq. subst. exact H.
  - intros H. exists el. auto.
Qed.

Lemma hiddenByStyle_node (el : Node) :
  hiddenByStyle h (JSNodeRef el)
  <-> (display (getComputedStyle h el) =? "none")%string
      || (visibility (getComputedStyle h el) =? "hidden")%string
      || (visibility (getComputedStyle h el) =? "collapse")%string
      || isZero (parseFloat (opacity (getComputedStyle h el))) = true.
Proof.
  unfold hiddenByStyle.
  rewrite !orb_true_iff, !String.eqb_eq, isZero_spec. split.
  - intros (el' & Heq & H). inversion Heq. subst. cbv zeta in H. tauto.
  - intros H. exists el. cbv zeta. tauto.
Qed.

Lemma outsideViewport_node (el : Node) :
  outsideViewport h (JSNodeRef el)
  <-> Qeq_bool (width (getBoundingClientRect h el)) 0
      || Qeq_bool (height (getBoundingClientRect h el)) 0
      || Qle_bool (left (getBoundingClientRect h el)
                   + width (getBoundingClientRect h el)) 0
      || Qle_bool (top (getBoundingClientRect h el)
                   + height (getBoundingClientRect h el)) 0
      || Qle_bool (inject_Z (innerWidth h)) (left (getBoundingClientRect h el))
      || Qle_bool (inject_Z (innerHeight h)) (top (getBoundingClientRect h el)) = true.
Proof.
  unfold outsideViewport.
  rewrite !orb_true_iff, !Qeq_bool_iff, !Qle_bool_iff. split.
  - intros (el' & Heq & H). inversion Heq. subst. cbv zeta in H. tauto.
  - intros H. exists el. cbv zeta. tauto.
Qed.

Lemma isElementEffectivelyHidden_spec (element : JSValue) :
  isElementEffectivelyHidden h element = true
  <-> absentOrDetached h element \/ zeroRenderedBox h element
      \/ hiddenByStyle h element \/ outsideViewport h element.
Proof.
  destruct element as [| |s|el]; try (simpl; tauto).
  rewrite isElementEffectivelyHidden_checks, zeroRenderedBox_node,
    hiddenByStyle_node, outsideViewport_node.
  rewrite orb_true_iff, negb_true_iff.
  rewrite (orb_true_iff (_ || _) (_ || _)).
  rewrite (orb_true_iff (_ || _ || _ || _) (_ || _)).
  simpl. tauto.
Qed.

End Oracle.

(** C8: [isElementEffectivelyHidden] answers [true] exactly when the
    element is absent or not connected, or its offset width or height is
    zero, or its computed style has [display: none], [visibility] [hidden]
    or [collapse] or an opacity that parses to zero, or its bounding
    rectangle is empty or lies outside the viewport on some side; the four
    checks are made in this order, each only when the ones before it
    failed.  It answers [true] for a detached node, a [display: none] node
    and a node above the viewport, and [false] for a visible 100x100 node
    inside the viewport with the default style. *)
Theorem C8_isElementEffectivelyHidden_conditions :
  (forall (h : Host) (element : JSValue),
     (isElementEffectivelyHidden h element = true
      <-> absentOrDetached h element \/ zeroRenderedBox h element
          \/ hiddenByStyle h element \/ outsideViewport h element)
     /\ (absentOrDetached h element ->
         isElementEffectivelyHidden h element = true)
     /\ (~ absentOrDetached h element -> zeroRenderedBox h element ->
         isElementEffectivelyHidden h element = true)
     /\ (~ absentOrDetached h element -> ~ zeroRenderedBox h element ->
         hiddenByStyle h element ->
         isElementEffectivelyHidden h element = true)
     /\ (~ absentOrDetached h element -> ~ zeroRenderedBox h element ->
         ~ hiddenByStyle h element ->
         isElementEffectivelyHidden h element = true <-> outsideViewport h element))
  /\ (isConnected pageHost (div 100 []) = false
      /\ isElementEffectivelyHidden pageHost (JSNodeRef (div 100 [])) = true)
  /\ (display (getComputedStyle pageHost (div 2 [])) = "none"
      /\ isElementEffectivelyHidden pageHost (JSNodeRef (div 2 [])) = true)
  /\ ((top (getBoundingClientRect pageHost (div 3 []))
       + height (getBoundingClientRect pageHost (div 3 [])) <= 0)%Q
      /\ isElementEffectivelyHidden pageHost (JSNodeRef (div 3 [])) = true)
  /\ (getBoundingClientRect pageHost (div 1 []) = mkRect 20 30 100 100
      /\ getComputedStyle pageHost (div 1 []) = visibleStyle
      /\ isElementEffectivelyHidden pageHost (JSNodeRef (div 1 [])) = false)
  /\ isElementEffectivelyHidden pageHost JSNull = true.
Proof.
  split.
  - intros h element. pose proof (isElementEffectivelyHidden_spec h element) as Hspec.
    repeat split; try tauto.
  - repeat split; try reflexivity. vm_compute. discriminate.
Qed.

(** ** How worlds evolve *)

Lemma evolves_refl (w : World) : evolves [] id w w.
Proof. unfold evolves. rewrite app_nil_r. auto. Qed.

Lemma evolves_trans (c1 c2 : list (nat * Node))
    (f1 f2 : list Observer -> list Observer) (w1 w2 w3 : World) :
  evolves c1 f1 w1 w2 -> evolves c2 f2 w2 w3 ->
  evolves (c1 ++ c2) (fun l => f2 (f1 l)) w1 w3.
Proof.
  unfold evolves. intros (Hd1 & Hc1 & Hl1 & Ho1 & Hp1) (Hd2 & Hc2 & Hl2 & Ho2 & Hp2).
  rewrite Hd2, Hc2, Hl2, Ho2, Hp2, Hd1, Hc1, Hl1, Ho1, Hp1, app_assoc. auto.
Qed.

Lemma evolves_change (c : list (nat * Node))
    (f g : list Observer -> list Observer) (w w' : World) :
  evolves c f w w' -> f (observers w) = g (observers w) -> evolves c g w w'.
Proof.
  unfold evolves. intros (Hd & Hc & Hl & Ho & Hp) Hfg. rewrite <- Hfg. auto.
Qed.

Lemma alter_clearQueue_twice (obs : nat) (l : list Observer) :
  alter clearQueue obs (alter clearQueue obs l) = alter clearQueue obs l.
Proof. rewrite list_alter_alter_eq. apply list_alter_ext; [|reflexivity]. auto. Qed.

Lemma alter_disconnect_clearQueue (obs : nat) (l : list Observer) :
  alter disconnectObserver obs (alter clearQueue obs l) = alter disconnectObserver obs l.
Proof. rewrite list_alter_alter_eq. apply list_alter_ext; [|reflexivity]. auto. Qed.

Lemma calm_refl (obs : nat) (w : World) : calm obs w w.
Proof. left. apply evolves_refl. Qed.

Lemma calm_trans (obs : nat) (w1 w2 w3 : World) :
  calm obs w1 w2 -> calm obs w2 w3 -> calm obs w1 w3.
Proof.
  intros [H1|H1] [H2|H2]; pose proof (evolves_trans _ _ _ _ _ _ _ H1 H2) as H;
    simpl in H.
  - left. exact H.
  - right. exact H.
  - right. exact H.
  - right. eapply evolves_change; [exact H|]. simpl. apply alter_clearQueue_twice.
Qed.

Lemma calm_fired (callback obs : nat) (e : Node) (w1 w2 w3 : World) :
  calm obs w1 w2 -> fired callback obs e w2 w3 -> fired callback obs e w1 w3.
Proof.
  unfold fired. intros [H1|H1] H2; pose proof (evolves_trans _ _ _ _ _ _ _ H1 H2) as H;
    simpl in H.
  - exact H.
  - eapply evolves_change; [exact H|]. simpl. apply alter_disconnect_clearQueue.
Qed.

Lemma reports_trans (callback : nat) (ns1 ns2 : list Node) (w1 w2 w3 : World) :
  reports callback ns1 w1 w2 -> reports callback ns2 w2 w3 ->
  reports callback (ns1 ++ ns2) w1 w3.
Proof.
  unfold reports. intros H1 H2. rewrite map_app.
  exact (evolves_trans _ _ _ _ _ _ _ H1 H2).
Qed.

(** ** Loops *)

Lemma forOf_ext {R A : Type} (xs : list A) (f g : A -> Js R unit) (w : World) :
  (forall x w, In x xs -> f x w = g x w) -> forOf xs f w = forOf xs g w.
Proof.
  revert w. induction xs as [|x xs IH]; intros w Hfg; simpl; [reflexivity|].
  unfold bind. rewrite Hfg by (left; reflexivity).
  destruct (g x w) as [[[]|r] w1]; [|reflexivity].
  apply IH. intros y w' Hy. apply Hfg. right. exact Hy.
Qed.

Lemma forOf_map {R A B : Type} (g : A -> B) (xs : list A) (body : B -> Js R unit)
    (w : World) :
  forOf (map g xs) body w = forOf xs (fun x => body (g x)) w.
Proof.
  revert w. induction xs as [|x xs IH]; intros w; simpl; [reflexivity|].
  unfold bind. destruct (body (g x) w) as [[[]|r] w1]; [|reflexivity]. apply IH.
Qed.

(** Iterations whose body does nothing can be left out. *)
Lemma forOf_filter {R A : Type} (p : A -> bool) (xs : list A)
    (body : A -> Js R unit) (w : World) :
  (forall x w, p x = false -> body x w = (Normal tt, w)) ->
  forOf (List.filter p xs) body w = forOf xs body w.
Proof.
  intros Hskip. revert w. induction xs as [|x xs IH]; intros w; simpl; [reflexivity|].
  destruct (p x) eqn:Hp; simpl.
  - unfold bind. destruct (body x w) as [[[]|r] w1]; [|reflexivity]. apply IH.
  - unfold bind. rewrite (Hskip x w Hp). apply IH.
Qed.

Lemma forEach_call (callback : nat) (ns : list Node) (w : World) :
  exists w', @forEach unit Node ns (fun d => call callback d) w = (Normal tt, w')
             /\ reports callback ns w w'.
Proof.
  revert w. induction ns as [|n ns IH]; intros w; simpl.
  - exists w. split; [reflexivity|]. apply evolves_refl.
  - js_unfold. simpl.
    destruct (IH (setCallbackLog (callbackLog w ++ [(callback, n)]) w))
      as (w' & Hrun & Hrep).
    exists w'. split; [exact Hrun|].
    change (n :: ns) with ([n] ++ ns). eapply reports_trans; [|exact Hrep].
    unfold reports, evolves. simpl. auto.
Qed.

(** ** The handler of [onNewElement], one added node at a time *)

Section Handler.

Variable h : Host.
Variable selector : string.
Variable callback : nat.
Variable obs : nat.

Lemma processAddedNode_skips (stop : bool) (node : Node) (w : World) :
  isElement node = false ->
  processAddedNode h selector callback stop obs node w = (Normal tt, w).
Proof.
  intros Hne. unfold processAddedNode. unfold isElement in Hne.
  rewrite Hne. reflexivity.
Qed.

(** Continuous mode: the node's matches are all reported. *)
Lemma processAddedNode_continuous (node : Node) (w : World) :
  exists w',
    processAddedNode h selector callback false obs node w = (Normal tt, w')
    /\ reports callback (nodeMatches h selector node) w w'.
Proof.
  unfold processAddedNode, nodeMatches, isElement.
  destruct (nodeType node =? ELEMENT_NODE)%Z.
  - unfold bind, ret, matches, querySelectorAll. simpl.
    destruct (matchesSelector h selector node).
    + unfold call at 1. unfold modify. simpl.
      match goal with |- context [forEach ?ns ?f ?w0] =>
        destruct (forEach_call callback ns w0) as (w' & Hrun & Hrep)
      end.
      exists w'. split; [exact Hrun|].
      change (node :: matchingNodes h selector (descendants node))
        with ([node] ++ matchingNodes h selector (descendants node)).
      eapply reports_trans; [|exact Hrep].
      unfold reports, evolves. simpl. auto.
    + simpl.
      match goal with |- context [forEach ?ns ?f ?w0] =>
        destruct (forEach_call callback ns w0) as (w' & Hrun & Hrep)
      end.
      exists w'. split; [exact Hrun|].
      change (matchingNodes h selector (descendants node))
        with ([] ++ matchingNodes h selector (descendants node)).
      eapply reports_trans; [|exact Hrep].
      unfold reports, evolves. simpl. rewrite app_nil_r. auto.
  - exists w. split; [reflexivity|]. apply evolves_refl.
Qed.

(** Stop-after-first mode: either the node has no match and nothing
    happens, or the callback gets its first match, the observer is
    disconnected and the handler returns. *)
Lemma processAddedNode_stop (node : Node) (w : World) :
  match processAddedNode h selector callback true obs node w with
  | (Normal _, w') => nodeMatches h selector node = [] /\ evolves [] id w w'
  | (Return _, w') =>
      exists e, head (nodeMatches h selector node) = Some e
                /\ fired callback obs e w w'
  end.
Proof.
  unfold processAddedNode, nodeMatches, isElement.
  destruct (nodeType node =? ELEMENT_NODE)%Z.
  - js_unfold. simpl.
    destruct (matchesSelector h selector node); simpl.
    + exists node. split; [reflexivity|].
      unfold fired, evolves, alterObserver. simpl. auto.
    + destruct (matchingNodes h selector (descendants node)) as [|d ds]; simpl.
      * split; [reflexivity|]. unfold evolves. simpl. rewrite app_nil_r. auto.
      * exists d. split; [reflexivity|].
        unfold fired, evolves, alterObserver. simpl. auto.
  - split; [reflexivity|]. apply evolves_refl.
Qed.

Lemma forOf_nodes_continuous (nodes : list Node) (w : World) :
  exists w',
    forOf nodes (processAddedNode h selector callback false obs) w = (Normal tt, w')
    /\ reports callback (flat_map (nodeMatches h selector) nodes) w w'.
Proof.
  revert w. induction nodes as [|n nodes IH]; intros w; simpl.
  - exists w. split; [reflexivity|]. apply evolves_refl.
  - destruct (processAddedNode_continuous n w) as (w1 & Hrun1 & Hrep1).
    destruct (IH w1) as (w' & Hrun & Hrep).
    exists w'. rewrite (bind_normal _ _ _ _ _ Hrun1). split; [exact Hrun|].
    eapply reports_trans; eassumption.
Qed.

Lemma forOf_nodes_stop (nodes : list Node) (w : World) :
  match forOf nodes (processAddedNode h selector callback true obs) w with
  | (Normal _, w') =>
      flat_map (nodeMatches h selector) nodes = [] /\ evolves [] id w w'
  | (Return _, w') =>
      exists e, head (flat_map (nodeMatches h selector) nodes) = Some e
                /\ fired callback obs e w w'
  end.
Proof.
  revert w. induction nodes as [|n nodes IH]; intros w; simpl.
  - split; [reflexivity|]. apply evolves_refl.
  - pose proof (processAddedNode_stop n w) as Hn. unfold bind.
    destruct (processAddedNode h selector callback true obs n w) as [[[]|[]] w1].
    + destruct Hn as [Hnone Hev]. rewrite Hnone. simpl.
      specialize (IH w1).
      destruct (forOf nodes (processAddedNode h selector callback true obs) w1)
        as [[[]|[]] w2].
      * destruct IH as [Hnil Hev2]. split; [exact Hnil|].
        exact (evolves_trans _ _ _ _ _ _ _ Hev Hev2).
      * destruct IH as (e & He & Hf). exists e. split; [exact He|].
        eapply calm_fired; [left; exact Hev|exact Hf].
    + destruct Hn as (e & He & Hf). exists e. split; [|exact Hf].
      destruct (nodeMatches h selector n); simpl in *; [discriminate|exact He].
Qed.

End Handler.

(** ** The handler of [onNewElement], record by record *)

Section Batches.

Variable h : Host.
Variable selector : string.
Variable callback : nat.
Variable obs : nat.

Lemma recordMatches_guard (r : MutationRecord) :
  isChildList (type r) && (0 <? length (addedNodes r)) = false ->
  recordMatches h selector r = [].
Proof.
  unfold recordMatches. destruct (type r); simpl; try reflexivity.
  destruct (addedNodes r); simpl; [reflexivity|discriminate].
Qed.

Lemma recordMatches_childList (r : MutationRecord) :
  isChildList (type r) && (0 <? length (addedNodes r)) = true ->
  recordMatches h selector r = flat_map (nodeMatches h selector) (addedNodes r).
Proof.
  unfold recordMatches. destruct (type r); simpl; try discriminate. reflexivity.
Qed.

Lemma processMutation_continuous (r : MutationRecord) (w : World) :
  exists w',
    processMutation h selector callback false obs r w = (Normal tt, w')
    /\ reports callback (recordMatches h selector r) w w'.
Proof.
  unfold processMutation.
  destruct (isChildList (type r) && (0 <? length (addedNodes r))) eqn:Hguard.
  - rewrite (recordMatches_childList r Hguard).
    destruct (forOf_nodes_continuous h selector callback obs (addedNodes r) w)
      as (w' & Hrun & Hrep).
    exists w'. rewrite (bind_normal _ _ _ _ _ Hrun). split; [reflexivity|exact Hrep].
  - rewrite (recordMatches_guard r Hguard).
    exists w. split; [reflexivity|]. apply evolves_refl.
Qed.

(** Continuous mode: a batch yields one callback per match, in order, and
    leaves the observer as it was. *)
Lemma onNewElementHandler_continuous (batch : list MutationRecord) (w : World) :
  exists w',
    onNewElementHandler h selector callback false batch obs w = (Normal tt, w')
    /\ reports callback (batchMatches h selector batch) w w'.
Proof.
  unfold onNewElementHandler, batchMatches.
  revert w. induction batch as [|r batch IH]; intros w; simpl.
  - exists w. split; [reflexivity|]. apply evolves_refl.
  - destruct (processMutation_continuous r w) as (w1 & Hrun1 & Hrep1).
    destruct (IH w1) as (w' & Hrun & Hrep).
    exists w'. rewrite (bind_normal _ _ _ _ _ Hrun1). split; [exact Hrun|].
    eapply reports_trans; eassumption.
Qed.

Lemma pendingRecords_evolves (c : list (nat * Node)) (w w' : World) :
  evolves c id w w' -> pendingRecords obs w' = pendingRecords obs w.
Proof.
  intros (_ & _ & _ & Ho & _). unfold pendingRecords. rewrite Ho. reflexivity.
Qed.

Lemma takeRecords_evolves (w : World) :
  evolves [] (alter clearQueue obs) w (alterObserver clearQueue obs w).
Proof. unfold evolves, alterObserver. simpl. rewrite app_nil_r. auto. Qed.

(** Stop-after-first mode, one record: a match fires; without one the loop
    goes on only if [takeRecords] found records pending. *)
Lemma processMutation_stop (r : MutationRecord) (w : World) :
  match processMutation h selector callback true obs r w with
  | (Normal _, w') =>
      recordMatches h selector r = [] /\ pendingRecords obs w <> []
      /\ evolves [] (alter clearQueue obs) w w'
  | (Return _, w') =>
      (recordMatches h selector r = [] /\ pendingRecords obs w = []
       /\ evolves [] (alter clearQueue obs) w w')
      \/ (exists e, head (recordMatches h selector r) = Some e
                    /\ fired callback obs e w w')
  end.
Proof.
  assert (Htake : forall w1 : World,
    recordMatches h selector r = [] -> evolves [] id w w1 ->
    match (let! records := takeRecords obs in
           if length records =? 0 then return_ tt else ret tt) w1
          : Completion unit unit * World with
    | (Normal _, w') =>
        recordMatches h selector r = [] /\ pendingRecords obs w <> []
        /\ evolves [] (alter clearQueue obs) w w'
    | (Return _, w') =>
        (recordMatches h selector r = [] /\ pendingRecords obs w = []
         /\ evolves [] (alter clearQueue obs) w w')
        \/ (exists e, head (recordMatches h selector r) = Some e
                      /\ fired callback obs e w w')
    end).
  { intros w1 Hnone Hev. unfold bind, takeRecords, return_, ret.
    rewrite (pendingRecords_evolves _ _ _ Hev).
    pose proof (evolves_trans _ _ _ _ _ _ _ Hev (takeRecords_evolves w1)) as Hev'.
    simpl in Hev'.
    destruct (pendingRecords obs w) as [|p ps]; simpl.
    - left. auto.
    - split; [exact Hnone|]. split; [discriminate|exact Hev']. }
  unfold processMutation.
  destruct (isChildList (type r) && (0 <? length (addedNodes r))) eqn:Hguard.
  - rewrite (recordMatches_childList r Hguard).
    rewrite (recordMatches_childList r Hguard) in Htake.
    pose proof (forOf_nodes_stop h selector callback obs (addedNodes r) w) as Hnodes.
    unfold bind at 1.
    destruct (forOf (addedNodes r) (processAddedNode h selector callback true obs) w)
      as [[[]|[]] w1].
    + destruct Hnodes as [Hnone Hev]. exact (Htake w1 Hnone Hev).
    + right. exact Hnodes.
  - rewrite (recordMatches_guard r Hguard).
    rewrite (recordMatches_guard r Hguard) in Htake.
    exact (Htake w eq_refl (evolves_refl w)).
Qed.

(** Stop-after-first mode, a whole batch: no callback at all, or exactly
    one, for a match of the batch, with the observer disconnected and the
    handler left at once. *)
Lemma onNewElementHandler_stop (batch : list MutationRecord) (w : World) :
  match onNewElementHandler h selector callback true batch obs w with
  | (c, w') =>
      calm obs w w'
      \/ (c = Return tt
          /\ exists e, In e (batchMatches h selector batch)
                       /\ fired callback obs e w w')
  end.
Proof.
  unfold onNewElementHandler.
  revert w. induction batch as [|r batch IH]; intros w; simpl.
  - left. apply calm_refl.
  - pose proof (processMutation_stop r w) as Hr. unfold bind.
    destruct (processMutation h selector callback true obs r w) as [[[]|[]] w1].
    + destruct Hr as (Hnone & _ & Hev).
      unfold batchMatches. simpl. rewrite Hnone. simpl.
      specialize (IH w1).
      destruct (forOf batch (processMutation h selector callback true obs) w1)
        as [c w2].
      destruct IH as [Hcalm|(Hc & e & He & Hf)].
      * left. eapply calm_trans; [right; exact Hev|exact Hcalm].
      * right. split; [exact Hc|]. exists e. split; [exact He|].
        eapply calm_fired; [right; exact Hev|exact Hf].
    + destruct Hr as [(_ & _ & Hev)|(e & He & Hf)].
      * left. right. exact Hev.
      * right. split; [reflexivity|]. exists e. split; [|exact Hf].
        unfold batchMatches. simpl. apply in_or_app. left.
        destruct (recordMatches h selector r); simpl in He; inversion He.
        subst. left. reflexivity.
Qed.

(** A batch delivered by the host finds no records pending, and then only
    its first record is ever examined: the handler returns after it,
    match or not. *)
Lemma onNewElementHandler_stop_first_record (r : MutationRecord)
    (rest : list MutationRecord) (w : World) :
  pendingRecords obs w = [] ->
  exists w',
    onNewElementHandler h selector callback true (r :: rest) obs w = (Return tt, w')
    /\ match head (recordMatches h selector r) with
       | Some e => fired callback obs e w w'
       | None => evolves [] (alter clearQueue obs) w w'
       end.
Proof.
  intros Hpending. unfold onNewElementHandler. simpl.
  pose proof (processMutation_stop r w) as Hr. unfold bind.
  destruct (processMutation h selector callback true obs r w) as [[[]|[]] w1].
  - destruct Hr as (_ & Hne & _). congruence.
  - exists w1. split; [reflexivity|].
    destruct Hr as [(Hnone & _ & Hev)|(e & He & Hf)].
    + rewrite Hnone. exact Hev.
    + rewrite He. exact Hf.
Qed.

End Batches.

(** ** Observers in the world *)

Lemma lookup_alterObserver (f : Observer -> Observer) (obs : nat) (w : World) :
  observers (alterObserver f obs w) !! obs = f <$> observers w !! obs.
Proof. unfold alterObserver. simpl. apply list_lookup_alter_eq. Qed.

Lemma alter_fixed {A : Type} (f : A -> A) (i : nat) (l : list A) :
  (forall x, l !! i = Some x -> f x = x) -> alter f i l = l.
Proof.
  intros Hf. rewrite <- (list_alter_id id l i) at 2 by reflexivity.
  apply list_alter_ext; [exact Hf|reflexivity].
Qed.

Lemma alterObserver_fixed (f : Observer -> Observer) (obs : nat) (w : World) :
  (forall o, observers w !! obs = Some o -> f o = o) -> alterObserver f obs w = w.
Proof.
  intros Hf. unfold alterObserver. rewrite (alter_fixed f obs _ Hf).
  destruct w. reflexivity.
Qed.

Lemma alterObserver_disconnect_twice (obs : nat) (w : World) :
  alterObserver disconnectObserver obs (alterObserver disconnectObserver obs w)
  = alterObserver disconnectObserver obs w.
Proof.
  unfold alterObserver. simpl. rewrite list_alter_alter_eq. reflexivity.
Qed.

Lemma inert_after_disconnect (obs : nat) (w : World) :
  inert obs (alterObserver disconnectObserver obs w).
Proof.
  unfold inert. rewrite lookup_alterObserver.
  destruct (observers w !! obs); simpl; auto.
Qed.

Section InertObserver.

Variable h : Host.
Variable obs : nat.

(** Nothing reaches a disconnected observer: a change of the page is not
    recorded for it, a checkpoint finds nothing to deliver, and a second
    [disconnect] changes nothing. *)
Lemma hostStep_inert (w : World) (ev : HostEvent) :
  inert obs w -> hostStep h obs w ev = documentAfter ev w.
Proof.
  unfold inert. intros Hinert. destruct ev as [d records| |]; simpl.
  - apply alterObserver_fixed. simpl. intros o Ho. rewrite Ho in Hinert.
    destruct Hinert as [Hobs _]. unfold enqueueRecords. rewrite Hobs. reflexivity.
  - unfold notify. destruct (observers w !! obs) as [o|]; [|reflexivity].
    destruct Hinert as [_ Hq]. rewrite Hq. reflexivity.
  - apply alterObserver_fixed. intros o Ho. rewrite Ho in Hinert.
    destruct Hinert as [Hobs Hq]. destruct o as [hd ob q]. simpl in *.
    subst. reflexivity.
Qed.

Lemma inert_documentAfter (w : World) (ev : HostEvent) :
  inert obs w -> inert obs (documentAfter ev w).
Proof. destruct ev; simpl; auto. Qed.

Lemma runEvents_inert (events : list HostEvent) (w : World) :
  inert obs w ->
  let w' := runEvents h obs events w in
  inert obs w'
  /\ callbackLog w' = callbackLog w
  /\ observers w' = observers w
  /\ promises w' = promises w
  /\ console w' = console w.
Proof.
  revert w. induction events as [|ev events IH]; intros w Hinert; simpl.
  - auto.
  - rewrite (hostStep_inert w ev Hinert).
    destruct (IH (documentAfter ev w) (inert_documentAfter w ev Hinert))
      as (Hi & Hc & Ho & Hp & Hk).
    unfold runEvents in *.
    rewrite Hc, Ho, Hp, Hk. split; [exact Hi|]. destruct ev; simpl; auto.
Qed.

End InertObserver.

(** ** Starting a watch *)

(** What a call that returns an observer has done. *)
Lemma onNewElement_Some (h : Host) (targetNode : JSValue) (selector : string)
    (callback : nat) (stop : bool) (w w0 : World) (obs : nat) :
  onNewElement h targetNode selector callback stop w = (Some obs, w0) ->
  exists target,
    targetNode = JSNodeRef target
    /\ instanceofHTMLElement targetNode = true
    /\ (stop = true -> matchingNodes h selector (descendants target) = [])
    /\ obs = length (observers w)
    /\ observers w0
       = observers w
         ++ [mkObserver (OnNewElementHandler selector callback stop)
                        (Some (TargetNode target, observerConfig)) []]
    /\ callbackLog w0 = callbackLog w
    /\ queryLog w0
       = (if stop then queryLog w ++ [QQuerySelector target selector] else queryLog w)
    /\ document w0 = document w
    /\ promises w0 = promises w.
Proof.
  unfold onNewElement, onNewElementBody.
  destruct targetNode as [| |s|target]; try (js_unfold; simpl; discriminate).
  destruct (instanceofHTMLElement (JSNodeRef target)) eqn:Hel;
    [|js_unfold; simpl; discriminate].
  intros Hrun. exists target. split; [reflexivity|]. split; [reflexivity|].
  destruct stop.
  - js_unfold. simpl in Hrun.
    destruct (matchingNodes h selector (descendants target)) as [|e es] eqn:Hm;
      simpl in Hrun; [|discriminate].
    inversion Hrun; subst; clear Hrun. unfold alterObserver. simpl.
    rewrite alter_app_r_alt by lia. rewrite Nat.sub_diag. simpl.
    repeat split; auto.
  - js_unfold. simpl in Hrun.
    inversion Hrun; subst; clear Hrun. unfold alterObserver. simpl.
    rewrite alter_app_r_alt by lia. rewrite Nat.sub_diag. simpl.
    repeat split; auto. discriminate.
Qed.

Lemma lookup_new_observer (l : list Observer) (o : Observer) :
  (l ++ [o]) !! length l = Some o.
Proof. rewrite lookup_app_r by lia. rewrite Nat.sub_diag. reflexivity. Qed.

(** A continuous watch on an [HTMLElement] always starts, without a query
    and without a callback. *)
Lemma onNewElement_continuous_starts (h : Host) (target : Node) (selector : string)
    (callback : nat) (w : World) :
  instanceofHTMLElement (JSNodeRef target) = true ->
  exists w0,
    onNewElement h (JSNodeRef target) selector callback false w
    = (Some (length (observers w)), w0).
Proof.
  intros Hel. unfold onNewElement, onNewElementBody. js_unfold.
  rewrite Hel. simpl. eexists. reflexivity.
Qed.


(** ** The life of a stop-after-first session *)

Section StopSession.

Variable h : Host.
Variable selector : string.
Variable callback : nat.
Variable obs : nat.
Variable base : list (nat * Node).

Lemma stopSession_step (w : World) (ev : HostEvent) :
  stopSession obs selector callback base w ->
  stopSession obs selector callback base (hostStep h obs w ev).
Proof.
  intros (o & Ho & Hh & Hlog). destruct ev as [d records| |]; simpl.
  - exists (enqueueRecords records o). rewrite lookup_alterObserver. simpl.
    rewrite Ho. split; [reflexivity|].
    split; [unfold enqueueRecords; destruct (observing o) as [[t c]|]; exact Hh|].
    destruct Hlog as [Hb|(e & He & Hobs & Hq)]; [left; exact Hb|].
    right. exists e. unfold enqueueRecords. rewrite Hobs. auto.
  - unfold notify. rewrite Ho.
    destruct (recordQueue o) as [|r queue] eqn:Hqueue.
    { exists o. split; [exact Ho|]. split; [exact Hh|].
      destruct Hlog as [Hb|(e & He & Hobs & _)]; [left; exact Hb|].
      right. exists e. auto. }
    destruct Hlog as [Hb|(e & _ & _ & Hq)]; [|discriminate].
    rewrite Hh. unfold invokeHandler, runBody.
    pose proof (onNewElementHandler_stop h selector callback obs (r :: queue)
                  (alterObserver clearQueue obs w)) as Hrun.
    assert (Hlook : observers (alterObserver clearQueue obs w) !! obs
                    = Some (clearQueue o))
      by (rewrite lookup_alterObserver, Ho; reflexivity).
    destruct (onNewElementHandler h selector callback true (r :: queue) obs
                (alterObserver clearQueue obs w)) as [c w'].
    assert (Hw' : snd (match c with Normal _ => (tt, w') | Return r0 => (r0, w') end)
                  = w') by (destruct c; reflexivity).
    rewrite Hw'. clear Hw'.
    destruct Hrun as [[Hev|Hev]|(_ & e & _ & Hev)];
      destruct Hev as (_ & _ & Hl & Hobs & _); simpl in Hl.
    + exists (clearQueue o). rewrite Hobs. simpl. split; [exact Hlook|].
      split; [exact Hh|]. left. rewrite Hl, app_nil_r. exact Hb.
    + exists (clearQueue (clearQueue o)). rewrite Hobs.
      rewrite list_lookup_alter_eq, Hlook. split; [reflexivity|].
      split; [exact Hh|]. left. rewrite Hl, app_nil_r. exact Hb.
    + exists (disconnectObserver (clearQueue o)). rewrite Hobs.
      rewrite list_lookup_alter_eq, Hlook. split; [reflexivity|].
      split; [exact Hh|]. right. exists e. rewrite Hl, Hb. auto.
  - exists (disconnectObserver o). rewrite lookup_alterObserver, Ho.
    split; [reflexivity|]. split; [exact Hh|].
    destruct Hlog as [Hb|(e & He & _)]; [left; exact Hb|].
    right. exists e. auto.
Qed.

Lemma stopSession_run (events : list HostEvent) (w : World) :
  stopSession obs selector callback base w ->
  stopSession obs selector callback base (runEvents h obs events w).
Proof.
  revert w. induction events as [|ev events IH]; intros w Hs; simpl; [exact Hs|].
  apply IH. apply stopSession_step. exact Hs.
Qed.

End StopSession.

(** C1: a stop-after-first session makes at most one callback in its whole
    life, whatever the page and the host do: at any moment it has made
    none, or exactly one after which its observer is disconnected with
    nothing pending.  Within a batch the first callback, for a match of the
    batch, is followed at once by the disconnection and the return of the
    handler. *)
Theorem C1_stop_after_first_at_most_once (h : Host) (targetNode : JSValue)
    (selector : string) (callback : nat) (w w0 : World) (obs : nat) :
  onNewElement h targetNode selector callback true w = (Some obs, w0) ->
  (forall events : list HostEvent,
     stopSession obs selector callback (callbackLog w) (runEvents h obs events w0))
  /\ (forall (batch : list MutationRecord) (w1 : World),
        calm obs w1 (snd (onNewElementHandler h selector callback true batch obs w1))
        \/ (fst (onNewElementHandler h selector callback true batch obs w1) = Return tt
            /\ exists e, In e (batchMatches h selector batch)
                 /\ fired callback obs e w1
                      (snd (onNewElementHandler h selector callback true batch obs w1)))).
Proof.
  intros Hstart.
  destruct (onNewElement_Some _ _ _ _ _ _ _ _ Hstart)
    as (target & _ & _ & _ & Hobs & Hobservers & Hlog & _).
  split.
  - intros events. apply stopSession_run.
    eexists. rewrite Hobservers, Hobs. split; [apply lookup_new_observer|].
    simpl. split; [reflexivity|]. left. exact Hlog.
  - intros batch w1.
    pose proof (onNewElementHandler_stop h selector callback obs batch w1) as Hrun.
    destruct (onNewElementHandler h selector callback true batch obs w1) as [c w'].
    exact Hrun.
Qed.

(** ** The life of a continuous session *)

Lemma batchMatches_In (h : Host) (selector : string) (batch : list MutationRecord)
    (n : Node) :
  In n (batchMatches h selector batch) <->
  exists r, In r batch /\ In n (recordMatches h selector r).
Proof. unfold batchMatches. apply in_flat_map. Qed.

Lemma nodeMatches_In (h : Host) (selector : string) (a n : Node) :
  In n (nodeMatches h selector a) ->
  isElement a = true /\ In n (subtree a)
  /\ isElement n = true /\ matchesSelector h selector n = true.
Proof.
  unfold nodeMatches, subtree. destruct (isElement a) eqn:Ha; [|intros []].
  intros Hin. apply in_app_or in Hin. destruct Hin as [Hin|Hin].
  - destruct (matchesSelector h selector a) eqn:Hm; [|destruct Hin].
    destruct Hin as [<-|[]]. simpl. auto.
  - apply matchingNodes_In in Hin. destruct Hin as (Hd & He & Hm). simpl. auto.
Qed.

(** Whatever a batch reports is a matching element that is an added
    element node of the batch or lies below one. *)
Lemma batchMatches_provenance (h : Host) (selector : string)
    (batch : list MutationRecord) (n : Node) :
  In n (batchMatches h selector batch) ->
  isElement n = true /\ matchesSelector h selector n = true
  /\ exists a, In a (batchAddedNodes batch) /\ isElement a = true /\ In n (subtree a).
Proof.
  intros Hin. apply batchMatches_In in Hin. destruct Hin as (r & Hr & Hn).
  unfold recordMatches in Hn. destruct (type r) eqn:Ht; try destruct Hn.
  apply in_flat_map in Hn. destruct Hn as (a & Ha & Hn).
  apply nodeMatches_In in Hn. destruct Hn as (Hae & Hsub & Hne & Hm).
  split; [exact Hne|]. split; [exact Hm|].
  exists a. split; [|auto].
  unfold batchAddedNodes. apply in_flat_map. exists r. split; [|exact Ha].
  apply filter_In. split; [exact Hr|]. rewrite Ht. reflexivity.
Qed.

Section ContinuousSession.

Variable h : Host.
Variable selector : string.
Variable callback : nat.
Variable obs : nat.

Lemma continuous_step (w : World) (ev : HostEvent) (o : Observer) :
  observers w !! obs = Some o ->
  handler o = OnNewElementHandler selector callback false ->
  exists o' ns,
    observers (hostStep h obs w ev) !! obs = Some o'
    /\ handler o' = OnNewElementHandler selector callback false
    /\ callbackLog (hostStep h obs w ev) = callbackLog w ++ map (pair callback) ns
    /\ incl ns (batchMatches h selector (recordQueue o))
    /\ incl (recordQueue o')
            (recordQueue o ++ match ev with DomChange _ records => records | _ => [] end).
Proof.
  intros Ho Hh. destruct ev as [d records| |]; cbn [hostStep].
  - exists (enqueueRecords records o), []. rewrite lookup_alterObserver. simpl.
    rewrite Ho, app_nil_r. split; [reflexivity|].
    unfold enqueueRecords. destruct (observing o) as [[t c]|]; simpl.
    + split; [exact Hh|]. split; [reflexivity|]. split; [intros x []|].
      apply incl_app; [apply incl_appl, incl_refl|].
      apply incl_appr. intros x Hx. apply filter_In in Hx. tauto.
    + split; [exact Hh|]. split; [reflexivity|]. split; [intros x []|].
      apply incl_appl, incl_refl.
  - unfold notify. rewrite Ho.
    destruct (recordQueue o) as [|r queue] eqn:Hqueue.
    { exists o, []. simpl. rewrite app_nil_r, Hqueue. repeat split; auto.
      - intros x [].
      - intros x []. }
    rewrite Hh. unfold invokeHandler, runBody.
    destruct (onNewElementHandler_continuous h selector callback obs (r :: queue)
                (alterObserver clearQueue obs w)) as (w' & Hrun & Hrep).
    rewrite Hrun. simpl.
    destruct Hrep as (_ & _ & Hl & Hobs & _). simpl in Hl.
    exists (clearQueue o), (batchMatches h selector (r :: queue)).
    rewrite Hobs. unfold id. rewrite lookup_alterObserver, Ho.
    split; [reflexivity|]. split; [exact Hh|]. split; [exact Hl|].
    split; [apply incl_refl|]. simpl. intros x [].
  - exists (disconnectObserver o), []. rewrite lookup_alterObserver, Ho. simpl.
    rewrite app_nil_r. repeat split; auto.
    + intros x [].
    + intros x [].
Qed.

(** Over any run of events a continuous session reports only matches of
    records that were pending at the start or produced during the run. *)
Lemma continuous_run (events : list HostEvent) (w : World) (o : Observer) :
  observers w !! obs = Some o ->
  handler o = OnNewElementHandler selector callback false ->
  exists o' ns,
    observers (runEvents h obs events w) !! obs = Some o'
    /\ handler o' = OnNewElementHandler selector callback false
    /\ callbackLog (runEvents h obs events w) = callbackLog w ++ map (pair callback) ns
    /\ incl ns (batchMatches h selector (recordQueue o ++ eventRecords events)).
Proof.
  revert w o. induction events as [|ev events IH]; intros w o Ho Hh; simpl.
  - exists o, []. simpl. rewrite app_nil_r. repeat split; auto. intros x [].
  - destruct (continuous_step w ev o Ho Hh) as (o1 & ns1 & Ho1 & Hh1 & Hl1 & Hns1 & Hq1).
    destruct (IH _ o1 Ho1 Hh1) as (o' & ns2 & Ho' & Hh' & Hl2 & Hns2).
    exists o', (ns1 ++ ns2). split; [exact Ho'|]. split; [exact Hh'|].
    split.
    { unfold runEvents in *. rewrite Hl2, Hl1, map_app, app_assoc. reflexivity. }
    intros n Hn. apply batchMatches_In. apply in_app_or in Hn.
    destruct Hn as [Hn|Hn].
    + apply Hns1, batchMatches_In in Hn. destruct Hn as (r & Hr & Hn).
      exists r. split; [|exact Hn]. apply in_or_app. left. exact Hr.
    + apply Hns2, batchMatches_In in Hn. destruct Hn as (r & Hr & Hn).
      exists r. split; [|exact Hn].
      apply in_app_or in Hr. destruct Hr as [Hr|Hr].
      * apply Hq1 in Hr. apply in_app_or in Hr. apply in_or_app.
        destruct Hr as [Hr|Hr]; [left; exact Hr|right].
        unfold eventRecords. simpl. apply in_or_app. left. exact Hr.
      * apply in_or_app. right. unfold eventRecords. simpl.
        apply in_or_app. right. exact Hr.
Qed.

End ContinuousSession.

(** ** Insertion batches *)

Lemma runEvents_app (h : Host) (obs : nat) (e1 e2 : list HostEvent) (w : World) :
  runEvents h obs (e1 ++ e2) w = runEvents h obs e2 (runEvents h obs e1 w).
Proof. unfold runEvents. apply fold_left_app. Qed.

Lemma batchMatches_interested (h : Host) (selector : string)
    (records : list MutationRecord) :
  batchMatches h selector (List.filter (interested observerConfig) records)
  = batchMatches h selector records.
Proof.
  unfold batchMatches. induction records as [|r records IH]; simpl; [reflexivity|].
  assert (Hr : recordMatches h selector r
               = if interested observerConfig r
                 then recordMatches h selector r else []).
  { unfold interested, recordMatches. destruct (type r); reflexivity. }
  destruct (interested observerConfig r); simpl.
  - rewrite IH. reflexivity.
  - rewrite IH, Hr. reflexivity.
Qed.

Section InsertionBatches.

Variable h : Host.
Variable selector : string.
Variable callback : nat.
Variable obs : nat.

(** A continuous session with nothing pending goes through an insertion
    batch unchanged, having reported each match of the batch once. *)
Lemma continuous_insertionBatch (w : World) (o : Observer) (t : ObserveTarget)
    (b : list Node * list MutationRecord) :
  observers w !! obs = Some o ->
  handler o = OnNewElementHandler selector callback false ->
  observing o = Some (t, observerConfig) ->
  recordQueue o = [] ->
  observers (runEvents h obs (insertionBatch b) w) !! obs = Some o
  /\ callbackLog (runEvents h obs (insertionBatch b) w)
     = callbackLog w ++ map (pair callback) (batchMatches h selector (snd b)).
Proof.
  intros Ho Hh Hobs Hq. destruct b as [d records].
  unfold insertionBatch, runEvents. cbn [fold_left hostStep fst snd].
  assert (Hlook : observers (alterObserver (enqueueRecords records) obs
                               (setDocument d w)) !! obs
                  = Some (mkObserver (handler o) (observing o)
                            (List.filter (interested observerConfig) records))).
  { rewrite lookup_alterObserver. simpl. rewrite Ho. simpl.
    unfold enqueueRecords. rewrite Hobs, Hq. reflexivity. }
  unfold notify. rewrite Hlook. simpl.
  rewrite <- (batchMatches_interested h selector records).
  destruct (List.filter (interested observerConfig) records) as [|r queue].
  - simpl. rewrite app_nil_r. split; [|reflexivity].
    destruct o as [hd ob q]. simpl in *. subst. exact Hlook.
  - rewrite Hh. unfold invokeHandler, runBody.
    destruct (onNewElementHandler_continuous h selector callback obs (r :: queue)
                (alterObserver clearQueue obs
                   (alterObserver (enqueueRecords records) obs (setDocument d w))))
      as (w' & Hrun & Hrep).
    rewrite Hrun. simpl.
    destruct Hrep as (_ & _ & Hl & Hob & _). simpl in Hl.
    split; [|exact Hl].
    rewrite Hob. unfold id. rewrite lookup_alterObserver, Hlook.
    destruct o as [hd ob q]. simpl in *. subst. reflexivity.
Qed.

Lemma continuous_insertionBatches (bs : list (list Node * list MutationRecord))
    (w : World) (o : Observer) (t : ObserveTarget) :
  observers w !! obs = Some o ->
  handler o = OnNewElementHandler selector callback false ->
  observing o = Some (t, observerConfig) ->
  recordQueue o = [] ->
  observers (runEvents h obs (flat_map insertionBatch bs) w) !! obs = Some o
  /\ callbackLog (runEvents h obs (flat_map insertionBatch bs) w)
     = callbackLog w
       ++ map (pair callback) (flat_map (fun b => batchMatches h selector (snd b)) bs).
Proof.
  intros Ho Hh Hobs Hq. revert w Ho.
  induction bs as [|b bs IH]; intros w Ho.
  - simpl. rewrite app_nil_r. auto.
  - cbn [flat_map]. rewrite runEvents_app.
    destruct (continuous_insertionBatch w o t b Ho Hh Hobs Hq) as [Ho1 Hl1].
    destruct (IH _ Ho1) as [Ho2 Hl2].
    split; [exact Ho2|]. rewrite Hl2, Hl1, map_app, app_assoc. reflexivity.
Qed.

End InsertionBatches.

Lemma one_match_per_batch (h : Host) (selector : string)
    (bs : list (list Node * list MutationRecord)) (es : list Node) :
  Forall2 (fun b e => batchMatches h selector (snd b) = [e]) bs es ->
  flat_map (fun b => batchMatches h selector (snd b)) bs = es.
Proof.
  induction 1 as [|b e bs es Hbe _ IH]; simpl; [reflexivity|].
  rewrite Hbe, IH. reflexivity.
Qed.

Lemma nodeMatches_complete (h : Host) (selector : string) (a : Node) :
  isElement a = true ->
  (matchesSelector h selector a = true -> In a (nodeMatches h selector a))
  /\ (forall d, In d (descendants a) -> isElement d = true ->
        matchesSelector h selector d = true -> In d (nodeMatches h selector a)).
Proof.
  intros Ha. unfold nodeMatches. rewrite Ha. split.
  - intros Hm. rewrite Hm. simpl. auto.
  - intros d Hd Hde Hdm. apply in_or_app. right.
    apply matchingNodes_In. auto.
Qed.

Lemma batchAddedNodes_In (batch : list MutationRecord) (a : Node) :
  In a (batchAddedNodes batch) <->
  exists r, In r batch /\ type r = childList /\ In a (addedNodes r).
Proof.
  unfold batchAddedNodes. rewrite in_flat_map. split.
  - intros (r & Hr & Ha). apply filter_In in Hr. destruct Hr as [Hr Ht].
    exists r. destruct (type r); simpl in Ht; try discriminate. auto.
  - intros (r & Hr & Ht & Ha). exists r. split; [|exact Ha].
    apply filter_In. rewrite Ht. auto.
Qed.

Lemma batchMatches_complete (h : Host) (selector : string)
    (batch : list MutationRecord) (a : Node) :
  In a (batchAddedNodes batch) -> isElement a = true ->
  (matchesSelector h selector a = true -> In a (batchMatches h selector batch))
  /\ (forall d, In d (descendants a) -> isElement d = true ->
        matchesSelector h selector d = true -> In d (batchMatches h selector batch)).
Proof.
  intros Ha Hae. apply batchAddedNodes_In in Ha. destruct Ha as (r & Hr & Ht & Ha).
  destruct (nodeMatches_complete h selector a Hae) as [Hself Hdesc].
  assert (Hsub : forall n, In n (nodeMatches h selector a) ->
                           In n (batchMatches h selector batch)).
  { intros n Hn. apply batchMatches_In. exists r. split; [exact Hr|].
    unfold recordMatches. rewrite Ht. apply in_flat_map. exists a. auto. }
  split; [auto|]. intros d Hd Hde Hdm. auto.
Qed.

Lemma matchingNodes_app (h : Host) (selector : string) (l1 l2 : list Node) :
  matchingNodes h selector (l1 ++ l2)
  = matchingNodes h selector l1 ++ matchingNodes h selector l2.
Proof. unfold matchingNodes. apply List.filter_app. Qed.

Lemma nodeMatches_subtree (h : Host) (selector : string) (a : Node) :
  isElement a = true ->
  nodeMatches h selector a = matchingNodes h selector (subtree a).
Proof.
  intros Ha. unfold nodeMatches, subtree, matchingNodes. simpl. rewrite Ha. simpl.
  destruct (matchesSelector h selector a); reflexivity.
Qed.

Lemma nodesMatches_subtrees (h : Host) (selector : string) (nodes : list Node) :
  flat_map (nodeMatches h selector) nodes
  = matchingNodes h selector (flat_map subtree (List.filter isElement nodes)).
Proof.
  induction nodes as [|a nodes IH]; simpl; [reflexivity|].
  destruct (isElement a) eqn:Ha.
  - cbn [flat_map]. rewrite matchingNodes_app, <- IH, nodeMatches_subtree by exact Ha.
    reflexivity.
  - unfold nodeMatches at 1. rewrite Ha. exact IH.
Qed.

(** The matches of a batch are the matching elements of the subtrees of
    its added element nodes, in order. *)
Lemma batchMatches_subtrees (h : Host) (selector : string)
    (batch : list MutationRecord) :
  batchMatches h selector batch
  = matchingNodes h selector
      (flat_map subtree (List.filter isElement (batchAddedNodes batch))).
Proof.
  unfold batchMatches, batchAddedNodes.
  induction batch as [|r batch IH]; simpl; [reflexivity|].
  unfold recordMatches at 1. destruct (type r); simpl; try exact IH.
  rewrite List.filter_app, flat_map_app, matchingNodes_app, <- IH, nodesMatches_subtrees.
  reflexivity.
Qed.

Lemma NoDup_only {A : Type} (l : list A) (e : A) :
  List.NoDup l -> (forall x, In x l <-> x = e) -> l = [e].
Proof.
  intros Hnd Hin. destruct l as [|a l].
  - exfalso. apply (Hin e). reflexivity.
  - assert (a = e) by (apply Hin; left; reflexivity). subst a.
    destruct l as [|b l]; [reflexivity|].
    assert (b = e) by (apply Hin; right; left; reflexivity). subst b.
    inversion Hnd as [|x l' Hnotin _]; subst. exfalso. apply Hnotin. left. reflexivity.
Qed.

Lemma oneNewMatch_batchMatches (h : Host) (selector : string)
    (batch : list MutationRecord) (e : Node) :
  oneNewMatch h selector batch e -> batchMatches h selector batch = [e].
Proof.
  intros [Hnd Hin]. rewrite batchMatches_subtrees. fold (addedSubtrees batch).
  unfold matchingNodes. apply NoDup_only.
  - apply List.NoDup_filter. exact Hnd.
  - intros n. rewrite filter_In, andb_true_iff. apply Hin.
Qed.

(** C5, as amended: in continuous mode a batch yields one callback per
    match, in order, a match being counted once for every added element
    node it is found at or under: each added element node that matches the
    selector, followed by all of its matching descendants, that is, every
    matching element of the subtree of every added element node; the
    observer stays as it was.  N insertion batches, each adding subtrees
    that do not overlap and hold exactly one matching element, yield exactly
    N callbacks, one per batch with that batch's element, and inserting the
    wrapper with its two [.item] spans under the empty root yields exactly
    two callbacks, for the two distinct spans. *)
Theorem C5_continuous_reports_every_match :
  (forall (h : Host) (selector : string) (callback obs : nat)
          (batch : list MutationRecord) (w : World),
     exists w',
       onNewElementHandler h selector callback false batch obs w = (Normal tt, w')
       /\ reports callback (batchMatches h selector batch) w w'
       /\ batchMatches h selector batch
          = matchingNodes h selector
              (flat_map subtree (List.filter isElement (batchAddedNodes batch))))
  /\ (forall (h : Host) (selector : string) (batch : list MutationRecord) (a : Node),
        In a (batchAddedNodes batch) -> isElement a = true ->
        (matchesSelector h selector a = true -> In a (batchMatches h selector batch))
        /\ (forall d, In d (descendants a) -> isElement d = true ->
              matchesSelector h selector d = true ->
              In d (batchMatches h selector batch)))
  /\ (forall (h : Host) (targetNode : JSValue) (selector : string) (callback : nat)
             (w w0 : World) (obs : nat)
             (bs : list (list Node * list MutationRecord)) (es : list Node),
        onNewElement h targetNode selector callback false w = (Some obs, w0) ->
        Forall2 (fun b e => oneNewMatch h selector (snd b) e) bs es ->
        callbackLog (runEvents h obs (flat_map insertionBatch bs) w0)
        = callbackLog w ++ map (pair callback) es
        /\ length es = length bs)
  /\ (oneNewMatch pageHost ".item" [added [Text 19 "new"; div 20 [itemSpan 21]]]
        (itemSpan 21)
      /\ callbackLog
           (runEvents pageHost 0
              (insertionBatch ([div 1 [Text 19 "new"; div 20 [itemSpan 21]]],
                               [added [Text 19 "new"; div 20 [itemSpan 21]]])
               ++ insertionBatch ([div 1 [Text 19 "new"; div 20 [itemSpan 21];
                                          itemSpan 22]],
                                  [added [itemSpan 22]]))
              (snd (onNewElement pageHost (JSNodeRef emptyRoot) ".item" 7 false
                      emptyWorld)))
         = [(7, itemSpan 21); (7, itemSpan 22)])
  /\ (childNodesOf emptyRoot = []
      /\ fst (onNewElement pageHost (JSNodeRef emptyRoot) ".item" 7 false emptyWorld)
         = Some 0
      /\ callbackLog
           (runEvents pageHost 0
              (insertionBatch ([div 1 [wrapper]], [added [wrapper]]))
              (snd (onNewElement pageHost (JSNodeRef emptyRoot) ".item" 7 false
                      emptyWorld)))
         = [(7, itemSpan 11); (7, itemSpan 12)]
      /\ itemSpan 11 <> itemSpan 12
      /\ matchesSelector pageHost ".item" (itemSpan 11) = true
      /\ matchesSelector pageHost ".item" (itemSpan 12) = true).
Proof.
  split; [|split; [|split; [|split]]].
  - intros h selector callback obs batch w.
    destruct (onNewElementHandler_continuous h selector callback obs batch w)
      as (w' & Hrun & Hrep).
    exists w'. split; [exact Hrun|]. split; [exact Hrep|].
    apply batchMatches_subtrees.
  - intros. apply batchMatches_complete; assumption.
  - intros h targetNode selector callback w w0 obs bs es Hstart Hbs.
    destruct (onNewElement_Some _ _ _ _ _ _ _ _ Hstart)
      as (target & _ & _ & _ & Hobs & Hobservers & Hlog & _).
    split; [|symmetry; exact (Forall2_length _ _ _ Hbs)].
    destruct (continuous_insertionBatches h selector callback obs bs w0
                (mkObserver (OnNewElementHandler selector callback false)
                            (Some (TargetNode target, observerConfig)) [])
                (TargetNode target)) as [_ Hl]; try reflexivity.
    { rewrite Hobservers, Hobs. apply lookup_new_observer. }
    rewrite Hl, Hlog. rewrite (one_match_per_batch h selector bs es); [reflexivity|].
    eapply List.Forall2_impl; [|exact Hbs].
    intros b e Hone. apply oneNewMatch_batchMatches. exact Hone.
  - split; [|reflexivity]. split.
    + simpl. repeat constructor; simpl; intuition discriminate.
    + intros n. simpl. split.
      * intros ([<-|[<-|[]]] & He & Hm); [discriminate|reflexivity].
      * intros ->. auto.
  - repeat split; try reflexivity. discriminate.
Qed.

(** C5 as stated fails when added subtrees overlap.  The page appends an
    empty wrapper to the root and then a matching [span] to the wrapper, in
    one task: the batch has a record adding the wrapper, which holds the
    [span] when the batch is delivered, and a record adding the [span].  One
    matching element was inserted, the page holds one match, and the one
    batch makes two callbacks, both for that [span]. *)
Lemma C5_nested_insertion_two_callbacks :
  let inner := itemSpan 11 in
  let outer := div 10 [inner] in
  let page := [div 1 [outer]] in
  let start := onNewElement pageHost (JSNodeRef emptyRoot) ".item" 7 false emptyWorld in
  fst start = Some 0
  /\ matchingNodes pageHost ".item" (forestNodes page) = [inner]
  /\ callbackLog
       (runEvents pageHost 0 (insertionBatch (page, [added [outer]; added [inner]]))
          (snd start))
     = [(7, inner); (7, inner)].
Proof. repeat split; reflexivity. Qed.

(** C9: a continuous watch makes no callback and no selector query when it
    starts, so elements already below the root are not reported then; and
    over any run of events every callback is for a matching element that
    is an added node of some record produced during the run, or lies below
    one. *)
Theorem C9_continuous_ignores_existing (h : Host) (target : Node)
    (selector : string) (callback : nat) (w : World) :
  instanceofHTMLElement (JSNodeRef target) = true ->
  exists obs w0,
    onNewElement h (JSNodeRef target) selector callback false w = (Some obs, w0)
    /\ callbackLog w0 = callbackLog w
    /\ queryLog w0 = queryLog w
    /\ forall events : list HostEvent,
         exists ns,
           callbackLog (runEvents h obs events w0)
           = callbackLog w ++ map (pair callback) ns
           /\ forall n, In n ns ->
                matchesSelector h selector n = true
                /\ exists a, In a (batchAddedNodes (eventRecords events))
                             /\ In n (subtree a).
Proof.
  intros Hel.
  destruct (onNewElement_continuous_starts h target selector callback w Hel)
    as (w0 & Hstart).
  exists (length (observers w)), w0. split; [exact Hstart|].
  destruct (onNewElement_Some _ _ _ _ _ _ _ _ Hstart)
    as (target' & _ & _ & _ & _ & Hobservers & Hlog & Hq & _).
  split; [exact Hlog|]. split; [exact Hq|].
  intros events.
  destruct (continuous_run h selector callback (length (observers w)) events w0
              (mkObserver (OnNewElementHandler selector callback false)
                          (Some (TargetNode target', observerConfig)) []))
    as (o' & ns & _ & _ & Hl & Hns); try reflexivity.
  { rewrite Hobservers. apply lookup_new_observer. }
  exists ns. rewrite Hl, Hlog. split; [reflexivity|].
  intros n Hn. apply Hns in Hn. simpl in Hn.
  apply batchMatches_provenance in Hn.
  destruct Hn as (_ & Hm & a & Ha & _ & Hsub). eauto.
Qed.

Lemma C9_continuous_ignores_existing_witness :
  exists obs w0,
    onNewElement pageHost (JSNodeRef wrapper) ".item" 7 false emptyWorld = (Some obs, w0)
    /\ callbackLog w0 = []
    /\ queryLog w0 = [].
Proof.
  destruct (C9_continuous_ignores_existing pageHost wrapper ".item" 7 emptyWorld eq_refl)
    as (obs & w0 & Hstart & Hlog & Hq & _).
  exists obs, w0. auto.
Defined.

Lemma C1_stop_after_first_at_most_once_witness :
  stopSession 0 ".item" 7 []
    (runEvents pageHost 0
       (insertionBatch ([div 1 [itemSpan 21]], [added [itemSpan 21]])
        ++ insertionBatch ([div 1 [itemSpan 21; itemSpan 22]], [added [itemSpan 22]]))
       (snd (onNewElement pageHost (JSNodeRef emptyRoot) ".item" 7 true emptyWorld))).
Proof.
  apply (C1_stop_after_first_at_most_once pageHost (JSNodeRef emptyRoot) ".item" 7
           emptyWorld _ 0 eq_refl).
Defined.

(** ** Cancelling *)

Lemma watching_run (h : Host) (obs : nat) (selector : string) (callback : nat)
    (stop : bool) (events : list HostEvent) (w : World) :
  watching obs selector callback stop w ->
  watching obs selector callback stop (runEvents h obs events w).
Proof.
  intros (o & Ho & Hh). destruct stop.
  - destruct (stopSession_run h selector callback obs (callbackLog w) events w)
      as (o' & Ho' & Hh' & _).
    { exists o. auto. }
    exists o'. auto.
  - destruct (continuous_run h selector callback obs events w o Ho Hh)
      as (o' & ns & Ho' & Hh' & _).
    exists o'. auto.
Qed.

(** C6: once the owner has disconnected the observer [onNewElement]
    returned, no event makes a callback any more, whatever is inserted
    afterwards: the observer is disconnected with nothing pending and stays
    so.  A second [disconnect] leaves the world exactly as it is. *)
Theorem C6_cancel_stops_callbacks (h : Host) (targetNode : JSValue)
    (selector : string) (callback : nat) (stop : bool) (w w0 : World) (obs : nat) :
  onNewElement h targetNode selector callback stop w = (Some obs, w0) ->
  forall before after : list HostEvent,
    let w1 := runEvents h obs before w0 in
    let w2 := hostStep h obs w1 Disconnect in
    (exists o, observers w2 !! obs = Some o
               /\ observing o = None /\ recordQueue o = [])
    /\ callbackLog (runEvents h obs after w2) = callbackLog w1
    /\ (callbackLog w1 = callbackLog w ->
        callbackLog (runEvents h obs after w2) = callbackLog w)
    /\ observers (runEvents h obs after w2) = observers w2
    /\ hostStep h obs w2 Disconnect = w2.
Proof.
  intros Hstart before after w1 w2.
  destruct (onNewElement_Some _ _ _ _ _ _ _ _ Hstart)
    as (target & _ & _ & _ & Hobs & Hobservers & _).
  assert (Hwatch : watching obs selector callback stop w1).
  { apply watching_run. eexists. rewrite Hobservers, Hobs.
    split; [apply lookup_new_observer|reflexivity]. }
  destruct Hwatch as (o & Ho & _).
  assert (Hinert : inert obs w2) by apply inert_after_disconnect.
  destruct (runEvents_inert h obs after w2 Hinert) as (_ & Hl & Hob & _).
  split.
  { exists (disconnectObserver o). subst w2. cbn [hostStep].
    rewrite lookup_alterObserver, Ho. auto. }
  split; [exact Hl|]. split; [intros Hnone; rewrite Hl; exact Hnone|].
  split; [exact Hob|]. subst w2. cbn [hostStep].
  apply alterObserver_disconnect_twice.
Qed.

Lemma C6_cancel_stops_callbacks_witness :
  callbackLog
    (runEvents pageHost 0
       (insertionBatch ([div 1 [itemSpan 21]], [added [itemSpan 21]]))
       (hostStep pageHost 0
          (snd (onNewElement pageHost (JSNodeRef emptyRoot) ".item" 7 true emptyWorld))
          Disconnect))
  = [].
Proof.
  pose proof (C6_cancel_stops_callbacks pageHost (JSNodeRef emptyRoot) ".item" 7 true
                emptyWorld _ 0 eq_refl []
                (insertionBatch ([div 1 [itemSpan 21]], [added [itemSpan 21]]))) as H.
  cbv zeta in H. destruct H as (_ & _ & H & _). exact (H eq_refl).
Defined.

(** ** Added nodes that are not elements *)

Section ElementsOnly.

Variable h : Host.
Variable selector : string.
Variable callback : nat.
Variable obs : nat.

Lemma processMutation_elementsOnly (stop : bool) (r : MutationRecord) (w : World) :
  processMutation h selector callback stop obs (elementsOnly r) w
  = processMutation h selector callback stop obs r w.
Proof.
  unfold processMutation, elementsOnly. cbn [type addedNodes].
  assert (Hloop :
    (if isChildList (type r) && (0 <? length (List.filter isElement (addedNodes r)))
     then forOf (List.filter isElement (addedNodes r))
                (processAddedNode h selector callback stop obs)
     else ret tt) w
    = (if isChildList (type r) && (0 <? length (addedNodes r))
       then forOf (addedNodes r) (processAddedNode h selector callback stop obs)
       else ret tt) w).
  { pose proof (forOf_filter isElement (addedNodes r)
                  (processAddedNode h selector callback stop obs) w
                  (fun x w' Hx => processAddedNode_skips h selector callback obs
                                    stop x w' Hx)) as Hf.
    destruct (isChildList (type r)); [|reflexivity]. simpl.
    destruct (addedNodes r) as [|n ns] eqn:Hnodes; [reflexivity|].
    destruct (List.filter isElement (n :: ns)) as [|e es] eqn:Hfilter.
    - change (@ret unit unit tt w
              = forOf (n :: ns) (processAddedNode h selector callback stop obs) w).
      rewrite <- Hf. reflexivity.
    - exact Hf. }
  unfold bind at 1. unfold bind at 2. rewrite Hloop. reflexivity.
Qed.

Lemma onNewElementHandler_elementsOnly (stop : bool) (batch : list MutationRecord)
    (w : World) :
  onNewElementHandler h selector callback stop (map elementsOnly batch) obs w
  = onNewElementHandler h selector callback stop batch obs w.
Proof.
  unfold onNewElementHandler. rewrite forOf_map. apply forOf_ext.
  intros r w' _. apply processMutation_elementsOnly.
Qed.

(** In either mode the callbacks of a batch are for elements found at or
    below added element nodes. *)
Lemma onNewElementHandler_calls_elements (stop : bool) (batch : list MutationRecord)
    (w : World) :
  exists ns,
    callbackLog (snd (onNewElementHandler h selector callback stop batch obs w))
    = callbackLog w ++ map (pair callback) ns
    /\ incl ns (batchMatches h selector batch).
Proof.
  destruct stop.
  - pose proof (onNewElementHandler_stop h selector callback obs batch w) as Hrun.
    destruct (onNewElementHandler h selector callback true batch obs w) as [c w'].
    simpl. destruct Hrun as [[Hev|Hev]|(_ & e & He & Hev)];
      destruct Hev as (_ & _ & Hl & _).
    + exists []. split; [exact Hl|]. intros x [].
    + exists []. split; [exact Hl|]. intros x [].
    + exists [e]. split; [exact Hl|]. intros x [<-|[]]. exact He.
  - destruct (onNewElementHandler_continuous h selector callback obs batch w)
      as (w' & Hrun & Hrep).
    rewrite Hrun. simpl. destruct Hrep as (_ & _ & Hl & _).
    exists (batchMatches h selector batch). split; [exact Hl|apply incl_refl].
Qed.

End ElementsOnly.

(** C10: in both modes the added nodes that are not elements have no
    effect at all: the handler does on a batch exactly what it does on the
    batch without them, selector queries included; and every callback is
    for an element that is an added element node or lies below one.  Even
    on a host whose engine would accept a text or a comment node, adding
    such nodes causes no callback and no query. *)
Theorem C10_non_element_nodes_skipped :
  (forall (h : Host) (selector : string) (callback obs : nat) (stop : bool)
          (batch : list MutationRecord) (w : World),
     onNewElementHandler h selector callback stop (map elementsOnly batch) obs w
     = onNewElementHandler h selector callback stop batch obs w)
  /\ (forall (h : Host) (selector : string) (callback obs : nat) (stop : bool)
             (batch : list MutationRecord) (w : World),
        exists ns,
          callbackLog (snd (onNewElementHandler h selector callback stop batch obs w))
          = callbackLog w ++ map (pair callback) ns
          /\ forall n, In n ns ->
               nodeType n = ELEMENT_NODE
               /\ exists a, In a (batchAddedNodes batch)
                            /\ nodeType a = ELEMENT_NODE /\ In n (subtree a))
  /\ (forall stop : bool,
        let w' := snd (onNewElementHandler credulousHost "*" 7 stop
                         [added [Text 30 "new"; Comment 31 "note"]] 0 emptyWorld) in
        callbackLog w' = [] /\ queryLog w' = []).
Proof.
  split; [|split].
  - intros. apply onNewElementHandler_elementsOnly.
  - intros h selector callback obs stop batch w.
    destruct (onNewElementHandler_calls_elements h selector callback obs stop batch w)
      as (ns & Hl & Hns).
    exists ns. split; [exact Hl|]. intros n Hn.
    apply Hns, batchMatches_provenance in Hn.
    destruct Hn as (Hne & _ & a & Ha & Hae & Hsub).
    unfold isElement in *. apply Z.eqb_eq in Hne. apply Z.eqb_eq in Hae. eauto.
  - intros [|]; split; reflexivity.
Qed.

(** ** [waitForElement] *)

Section Waiter.

Variable h : Host.
Variable selector : string.

Lemma documentMatch_matches (d : list Node) (e : Node) :
  documentMatch h selector d = Some e ->
  In e (forestNodes d) /\ isElement e = true /\ matchesSelector h selector e = true.
Proof.
  unfold documentMatch, matchingNodes. intros He.
  apply head_filter_In in He. destruct He as [Hin Hp].
  apply andb_true_iff in Hp. tauto.
Qed.

(** The handler: one query of the whole document; on a match the observer
    is disconnected and the promise resolved with the result of a second
    query. *)
Lemma waitForElementHandler_run (p obs : nat) (records : list MutationRecord)
    (w : World) :
  snd (runBody tt (waitForElementHandler h selector p records obs) w)
  = match documentMatch h selector (document w) with
    | Some e =>
        setPromises (alter (resolvePromise (JSNodeRef e)) p (promises w))
          (logQuery (QDocumentQuerySelector selector)
             (alterObserver disconnectObserver obs
                (logQuery (QDocumentQuerySelector selector) w)))
    | None => logQuery (QDocumentQuerySelector selector) w
    end.
Proof.
  unfold waitForElementHandler, documentMatch. js_unfold. simpl.
  destruct (head (matchingNodes h selector (forestNodes (document w)))) as [e|] eqn:He;
    simpl; [|reflexivity].
  rewrite He. reflexivity.
Qed.

(** A match at call time: the promise is resolved before [waitForElement]
    returns, and no observer is created. *)
Lemma waitForElement_found (w : World) (e : Node) :
  documentMatch h selector (document w) = Some e ->
  let result := waitForElement h selector w in
  fst result = length (promises w)
  /\ promises (snd result) = promises w ++ [resolvedWith e]
  /\ observers (snd result) = observers w
  /\ document (snd result) = document w
  /\ callbackLog (snd result) = callbackLog w.
Proof.
  unfold documentMatch. intros He.
  unfold waitForElement, waitForElementBody, waitForElementExecutor. js_unfold.
  simpl. rewrite He. simpl. rewrite He. simpl.
  rewrite alter_app_r_alt by lia. rewrite Nat.sub_diag. simpl.
  repeat split; reflexivity.
Qed.

(** No match at call time: the promise stays pending and an observer is
    registered on the body. *)
Lemma waitForElement_registers (w : World) :
  documentMatch h selector (document w) = None ->
  let result := waitForElement h selector w in
  fst result = length (promises w)
  /\ promises (snd result) = promises w ++ [pendingPromise]
  /\ observers (snd result)
     = observers w
       ++ [mkObserver (WaitForElementHandler selector (length (promises w)))
                      (Some (TargetDocumentBody, mkConfig true true false false)) []]
  /\ document (snd result) = document w
  /\ callbackLog (snd result) = callbackLog w.
Proof.
  unfold documentMatch. intros He.
  unfold waitForElement, waitForElementBody, waitForElementExecutor. js_unfold.
  simpl. rewrite He. simpl. unfold alterObserver. simpl.
  rewrite alter_app_r_alt by lia. rewrite Nat.sub_diag. simpl.
  repeat split; reflexivity.
Qed.

Variable obs : nat.
Variable p : nat.

(** Delivering a batch to a pending wait. *)
Lemma waitPending_deliver (w : World) :
  waitPending obs p selector w ->
  pendingRecords obs w <> [] ->
  match documentMatch h selector (document w) with
  | Some e =>
      promises (hostStep h obs w Microtask) !! p = Some (resolvedWith e)
      /\ inert obs (hostStep h obs w Microtask)
  | None =>
      hostStep h obs w Microtask
      = logQuery (QDocumentQuerySelector selector) (alterObserver clearQueue obs w)
      /\ waitPending obs p selector (hostStep h obs w Microtask)
      /\ pendingRecords obs (hostStep h obs w Microtask) = []
  end.
Proof.
  intros (o & Ho & Hh & Hobs & Hp) Hq. unfold pendingRecords in Hq.
  rewrite Ho in Hq. cbn [hostStep]. unfold notify. rewrite Ho.
  destruct (recordQueue o) as [|r queue] eqn:Hqueue; [congruence|].
  rewrite Hh. unfold invokeHandler. rewrite waitForElementHandler_run.
  change (document (alterObserver clearQueue obs w)) with (document w).
  destruct (documentMatch h selector (document w)) as [e|].
  - split.
    + simpl. rewrite list_lookup_alter_eq, Hp. reflexivity.
    + unfold inert. simpl. rewrite !list_lookup_alter_eq, Ho. simpl. auto.
  - split; [reflexivity|]. split.
    + exists (clearQueue o). simpl. rewrite list_lookup_alter_eq, Ho. auto.
    + unfold pendingRecords. simpl. rewrite list_lookup_alter_eq, Ho. reflexivity.
Qed.

Lemma waitSession_step (w : World) (ev : HostEvent) :
  waitSession h obs p selector w ->
  waitSession h obs p selector (hostStep h obs w ev).
Proof.
  intros (o & Ho & Hh & Hstate). destruct ev as [d records| |]; cbn [hostStep].
  - exists (enqueueRecords records o). rewrite lookup_alterObserver. simpl.
    rewrite Ho. split; [reflexivity|].
    split; [unfold enqueueRecords; destruct (observing o) as [[t c]|]; exact Hh|].
    destruct Hstate as [Hp|(e & Hp & He & Hm & Hobs & Hq)]; [left; exact Hp|].
    right. exists e. unfold enqueueRecords. rewrite Hobs. auto.
  - unfold notify. rewrite Ho.
    destruct (recordQueue o) as [|r queue] eqn:Hqueue.
    { exists o. split; [exact Ho|]. split; [exact Hh|].
      destruct Hstate as [Hp|(e & Hp & He & Hm & Hobs & _)]; [left; exact Hp|].
      right. exists e. auto. }
    destruct Hstate as [Hp|(e & _ & _ & _ & _ & Hq)]; [|discriminate].
    rewrite Hh. unfold invokeHandler. rewrite waitForElementHandler_run.
    change (document (alterObserver clearQueue obs w)) with (document w).
    destruct (documentMatch h selector (document w)) as [e|] eqn:He.
    + destruct (documentMatch_matches _ _ He) as (_ & Hee & Hem).
      exists (disconnectObserver (clearQueue o)). simpl.
      rewrite !list_lookup_alter_eq, Ho. split; [reflexivity|].
      split; [exact Hh|]. right. exists e. rewrite Hp. auto.
    + exists (clearQueue o). simpl. rewrite list_lookup_alter_eq, Ho.
      split; [reflexivity|]. split; [exact Hh|]. left. exact Hp.
  - exists (disconnectObserver o). rewrite lookup_alterObserver, Ho.
    split; [reflexivity|]. split; [exact Hh|].
    destruct Hstate as [Hp|(e & Hp & He & Hm & _)]; [left; exact Hp|].
    right. exists e. auto.
Qed.

Lemma waitSession_run (events : list HostEvent) (w : World) :
  waitSession h obs p selector w ->
  waitSession h obs p selector (runEvents h obs events w).
Proof.
  revert w. induction events as [|ev events IH]; intros w Hs; simpl; [exact Hs|].
  apply IH. apply waitSession_step. exact Hs.
Qed.

(** While no document of the run holds a match, the promise stays
    pending. *)
Lemma waitSession_never (events : list HostEvent) (w : World) (o : Observer) :
  observers w !! obs = Some o ->
  handler o = WaitForElementHandler selector p ->
  promises w !! p = Some pendingPromise ->
  documentMatch h selector (document w) = None ->
  (forall d, In d (eventDocuments events) -> documentMatch h selector d = None) ->
  promises (runEvents h obs events w) !! p = Some pendingPromise.
Proof.
  revert w o. induction events as [|ev events IH]; intros w o Ho Hh Hp Hdoc Hdocs;
    simpl; [exact Hp|].
  destruct ev as [d records| |]; cbn [hostStep].
  - apply (IH _ (enqueueRecords records o)).
    + rewrite lookup_alterObserver. simpl. rewrite Ho. reflexivity.
    + unfold enqueueRecords. destruct (observing o) as [[t c]|]; exact Hh.
    + exact Hp.
    + simpl. apply Hdocs. simpl. auto.
    + intros d' Hd'. apply Hdocs. simpl. auto.
  - unfold notify. rewrite Ho.
    destruct (recordQueue o) as [|r queue] eqn:Hqueue.
    { apply (IH _ o); auto. }
    rewrite Hh. unfold invokeHandler. rewrite waitForElementHandler_run.
    change (document (alterObserver clearQueue obs w)) with (document w).
    rewrite Hdoc. apply (IH _ (clearQueue o)).
    + simpl. rewrite list_lookup_alter_eq, Ho. reflexivity.
    + exact Hh.
    + exact Hp.
    + exact Hdoc.
    + exact Hdocs.
  - apply (IH _ (disconnectObserver o)).
    + rewrite lookup_alterObserver, Ho. reflexivity.
    + exact Hh.
    + exact Hp.
    + exact Hdoc.
    + exact Hdocs.
Qed.

End Waiter.

(** C7: when the document holds a match at call time, [waitForElement]
    returns a promise already resolved with the first matching element and
    creates no observer.  Otherwise the promise is pending and an observer
    is registered on the body for child-list changes in the subtree; each
    batch delivered makes the handler query the whole document again; the
    first batch delivered while the document holds a match resolves the
    promise with the first matching element and disconnects the observer,
    after which nothing changes; the promise is resolved at most once; and
    while no document holds a match it stays pending. *)
Theorem C7_waitForElement_resolution :
  (forall (h : Host) (selector : string) (w : World) (e : Node),
     documentMatch h selector (document w) = Some e ->
     promises (snd (waitForElement h selector w)) !! fst (waitForElement h selector w)
     = Some (resolvedWith e)
     /\ observers (snd (waitForElement h selector w)) = observers w
     /\ isElement e = true /\ matchesSelector h selector e = true)
  /\ (forall (h : Host) (selector : string) (w : World),
        documentMatch h selector (document w) = None ->
        let p := fst (waitForElement h selector w) in
        let w0 := snd (waitForElement h selector w) in
        let obs := length (observers w) in
        waitPending obs p selector w0
        /\ pendingRecords obs w0 = []
        /\ length (observers w0) = S (length (observers w))
        /\ (forall events : list HostEvent,
              waitSession h obs p selector (runEvents h obs events w0))
        /\ (forall events : list HostEvent,
              (forall d, In d (eventDocuments events) ->
                         documentMatch h selector d = None) ->
              promises (runEvents h obs events w0) !! p = Some pendingPromise))
  /\ (forall (h : Host) (selector : string) (obs p : nat) (w : World),
        waitPending obs p selector w ->
        pendingRecords obs w <> [] ->
        match documentMatch h selector (document w) with
        | Some e =>
            forall after : list HostEvent,
              promises (runEvents h obs (Microtask :: after) w) !! p
              = Some (resolvedWith e)
              /\ inert obs (runEvents h obs (Microtask :: after) w)
        | None =>
            hostStep h obs w Microtask
            = logQuery (QDocumentQuerySelector selector)
                       (alterObserver clearQueue obs w)
            /\ waitPending obs p selector (hostStep h obs w Microtask)
            /\ pendingRecords obs (hostStep h obs w Microtask) = []
        end)
  /\ (let start := waitForElement pageHost ".item" (setDocument [emptyRoot] emptyWorld) in
      let grown := [div 1 [div 20 []]] in
      let full := [div 1 [div 20 []; wrapper]] in
      promises (snd start) = [pendingPromise]
      /\ promises (runEvents pageHost 0
                     (insertionBatch (grown, [added [div 20 []]])) (snd start))
         = [pendingPromise]
      /\ promises (runEvents pageHost 0
                     (insertionBatch (grown, [added [div 20 []]])
                      ++ insertionBatch (full, [added [wrapper]]))
                     (snd start))
         = [resolvedWith (itemSpan 11)]).
Proof.
  split; [|split; [|split]].
  - intros h selector w e He.
    destruct (waitForElement_found h selector w e He) as (Hp & Hps & Hobs & _).
    destruct (documentMatch_matches h selector _ _ He) as (_ & Hee & Hem).
    rewrite Hp, Hps. split; [|auto].
    rewrite lookup_app_r by lia. rewrite Nat.sub_diag. reflexivity.
  - intros h selector w Hnone p w0 obs.
    destruct (waitForElement_registers h selector w Hnone)
      as (Hp & Hps & Hobs & Hdoc & _).
    fold p in Hp. fold w0 in Hps, Hobs, Hdoc.
    assert (Hlookp : promises w0 !! p = Some pendingPromise).
    { rewrite Hps, Hp. rewrite lookup_app_r by lia.
      rewrite Nat.sub_diag. reflexivity. }
    assert (Hlooko : observers w0 !! obs
                     = Some (mkObserver (WaitForElementHandler selector p)
                               (Some (TargetDocumentBody, mkConfig true true false false))
                               [])).
    { rewrite Hobs, Hp. apply lookup_new_observer. }
    split; [eexists; split; [exact Hlooko|]; auto|].
    split; [unfold pendingRecords; rewrite Hlooko; reflexivity|].
    split; [rewrite Hobs, length_app; simpl; lia|].
    split.
    + intros events. apply waitSession_run. eexists. split; [exact Hlooko|]. auto.
    + intros events Hdocs.
      eapply waitSession_never; [exact Hlooko|reflexivity|exact Hlookp| |exact Hdocs].
      rewrite Hdoc. exact Hnone.
  - intros h selector obs p w Hpending Hq.
    pose proof (waitPending_deliver h selector obs p w Hpending Hq) as Hstep.
    destruct (documentMatch h selector (document w)) as [e|]; [|exact Hstep].
    intros after. destruct Hstep as [Hres Hinert].
    destruct (runEvents_inert h obs after _ Hinert) as (Hi & _ & _ & Hpr & _).
    change (runEvents h obs (Microtask :: after) w)
      with (runEvents h obs after (hostStep h obs w Microtask)).
    rewrite Hpr. auto.
  - repeat split; reflexivity.
Qed.

(** ** The second record of a batch in stop-after-first mode *)

(** In a stop-after-first session a batch whose first record brings no
    match causes no callback, whatever its later records add. *)
Lemma stop_session_later_records_ignored (h : Host) (targetNode : JSValue)
    (selector : string) (callback : nat) (w w0 : World) (obs : nat)
    (d : list Node) (r : MutationRecord) (rest : list MutationRecord) :
  onNewElement h targetNode selector callback true w = (Some obs, w0) ->
  type r = childList ->
  recordMatches h selector r = [] ->
  callbackLog (runEvents h obs (insertionBatch (d, r :: rest)) w0) = callbackLog w.
Proof.
  intros Hstart Htype Hnone.
  destruct (onNewElement_Some _ _ _ _ _ _ _ _ Hstart)
    as (target & _ & _ & _ & Hobs & Hobservers & Hlog & _).
  unfold insertionBatch, runEvents. cbn [fold_left hostStep fst snd].
  assert (Hlook : observers (alterObserver (enqueueRecords (r :: rest)) obs
                               (setDocument d w0)) !! obs
                  = Some (mkObserver (OnNewElementHandler selector callback true)
                            (Some (TargetNode target, observerConfig))
                            (r :: List.filter (interested observerConfig) rest))).
  { rewrite lookup_alterObserver. simpl. rewrite Hobservers, Hobs.
    rewrite lookup_new_observer. simpl. unfold enqueueRecords. simpl.
    unfold interested at 1. rewrite Htype. reflexivity. }
  unfold notify. rewrite Hlook. cbn [recordQueue handler invokeHandler].
  destruct (onNewElementHandler_stop_first_record h selector callback obs r
              (List.filter (interested observerConfig) rest)
              (alterObserver clearQueue obs
                 (alterObserver (enqueueRecords (r :: rest)) obs (setDocument d w0))))
    as (w' & Hrun & Hout).
  { unfold pendingRecords. rewrite lookup_alterObserver, Hlook. reflexivity. }
  unfold runBody. rewrite Hrun. simpl. rewrite Hnone in Hout. simpl in Hout.
  destruct Hout as (_ & _ & Hl & _). simpl in Hl.
  rewrite Hl, app_nil_r. exact Hlog.
Qed.

(** C2, evaluated at the failing input: a stop-after-first watch starts
    on the empty root, where nothing matches; the page then appends a
    [div] and a matching [span], which the host delivers as two records of
    one batch.  The batch holds exactly one match, yet no callback is made
    and the observer stays registered with nothing pending: after the
    first record the handler finds [takeRecords()] empty and returns.  The
    same two nodes delivered in one record do yield the callback. *)
Theorem C2_match_in_second_record_missed :
  let start := onNewElement pageHost (JSNodeRef emptyRoot) ".item" 7 true emptyWorld in
  let page := [div 1 [div 20 []; itemSpan 21]] in
  let twoRecords := [added [div 20 []]; added [itemSpan 21]] in
  let oneRecord := [added [div 20 []; itemSpan 21]] in
  fst start = Some 0
  /\ matchingNodes pageHost ".item" (descendants emptyRoot) = []
  /\ batchMatches pageHost ".item" twoRecords = [itemSpan 21]
  /\ callbackLog (runEvents pageHost 0 (insertionBatch (page, twoRecords)) (snd start))
     = []
  /\ observers (runEvents pageHost 0 (insertionBatch (page, twoRecords)) (snd start))
     = [mkObserver (OnNewElementHandler ".item" 7 true)
                   (Some (TargetNode emptyRoot, observerConfig)) []]
  /\ callbackLog (runEvents pageHost 0 (insertionBatch (page, oneRecord)) (snd start))
     = [(7, itemSpan 21)].
Proof. repeat split; reflexivity. Qed.

(** The same happens when the only insertion of the batch is the matching
    node and the record before it reports a removal: the root holds a text
    node, the page removes it and appends the matching [span]. *)
Lemma removal_then_match_missed :
  let root := div 1 [Text 5 "loading"] in
  let start := onNewElement pageHost (JSNodeRef root) ".item" 7 true emptyWorld in
  let batch := [mkRecord childList [] [Text 5 "loading"]; added [itemSpan 21]] in
  fst start = Some 0
  /\ batchAddedNodes batch = [itemSpan 21]
  /\ batchMatches pageHost ".item" batch = [itemSpan 21]
  /\ callbackLog
       (runEvents pageHost 0 (insertionBatch ([div 1 [itemSpan 21]], batch)) (snd start))
     = [].
Proof. repeat split; reflexivity. Qed.

(** In continuous mode a match is reported for each added node it is found
    at or under: when a wrapper and, in a later record of the same batch,
    a [span] appended to it are both added nodes, the [span] is reported
    twice. *)
Lemma nested_insertion_reported_twice :
  let inner := itemSpan 11 in
  let outer := div 10 [inner] in
  callbackLog
    (snd (onNewElementHandler pageHost ".item" 7 false [added [outer]; added [inner]] 0
            emptyWorld))
  = [(7, inner); (7, inner)].
Proof. reflexivity. Qed.

(** * Further properties of the code *)

(** ** [isMacOS] *)

Lemma prefix_append (t s : string) :
  String.prefix t s = true <-> exists post, s = (t ++ post)%string.
Proof.
  revert s. induction t as [|c t IH]; intros s.
  - split; [intros _; exists s; reflexivity|]. intros _. destruct s; reflexivity.
  - destruct s as [|c' s]; simpl.
    + split; [discriminate|]. intros (post & Hs). discriminate.
    + destruct (ascii_dec c c') as [->|Hne].
      * rewrite IH. split.
        -- intros (post & ->). exists post. reflexivity.
        -- intros (post & Hs). inversion Hs. exists post. reflexivity.
      * split; [discriminate|]. intros (post & Hs). inversion Hs. congruence.
Qed.

Lemma indexOfFrom_lower (s t : string) (k : Z) :
  (0 <= k)%Z -> (indexOfFrom s t k = -1 \/ k <= indexOfFrom s t k)%Z.
Proof.
  revert k. induction s as [|c s IH]; intros k Hk; cbn [indexOfFrom].
  - destruct (String.prefix t ""); [right|left]; lia.
  - destruct (String.prefix t (String c s)); [right; lia|].
    destruct (IH (k + 1)%Z ltac:(lia)) as [H|H]; [left; exact H|right; lia].
Qed.

(** [indexOf] finds an occurrence exactly when there is one. *)
Lemma indexOfFrom_found (s t : string) (k : Z) :
  (0 <= k)%Z ->
  (indexOfFrom s t k <> -1)%Z <-> exists pre post, s = (pre ++ t ++ post)%string.
Proof.
  revert k. induction s as [|c s IH]; intros k Hk; cbn [indexOfFrom].
  - destruct (String.prefix t "") eqn:Hp.
    + split; [|lia]. intros _. apply prefix_append in Hp.
      destruct Hp as (post & Hs). exists "", post. exact Hs.
    + split; [congruence|]. intros (pre & post & Hs).
      destruct pre; simpl in Hs; [|discriminate].
      assert (String.prefix t "" = true) by (apply prefix_append; eauto).
      congruence.
  - destruct (String.prefix t (String c s)) eqn:Hp.
    + split; [|lia]. intros _. apply prefix_append in Hp.
      destruct Hp as (post & Hs). exists "", post. exact Hs.
    + rewrite (IH (k + 1)%Z) by lia. split.
      * intros (pre & post & ->). exists (String c pre), post. reflexivity.
      * intros (pre & post & Hs). destruct pre as [|c' pre]; simpl in Hs.
        -- assert (String.prefix t (String c s) = true)
             by (apply prefix_append; eauto).
           congruence.
        -- inversion Hs. eauto.
Qed.

(** X1: [isMacOS] answers [true] exactly when [navigator.platform]
    contains the text [Mac] somewhere, in this spelling. *)
Theorem X1_isMacOS_iff_contains_Mac (navigator : Navigator) :
  isMacOS navigator = true
  <-> exists pre post, platform navigator = (pre ++ "Mac" ++ post)%string.
Proof.
  unfold isMacOS, indexOf.
  rewrite <- (indexOfFrom_found (platform navigator) "Mac" 0%Z) by lia.
  rewrite Z.gtb_lt.
  destruct (indexOfFrom_lower (platform navigator) "Mac" 0%Z) as [H|H]; lia.
Qed.

(** ** Changes that are not child-list changes *)

Lemma filter_interested_none (records : list MutationRecord) :
  noChildListRecord records ->
  List.filter (interested (mkConfig true true false false)) records = [].
Proof.
  induction 1 as [|r records Hr _ IH]; simpl; [reflexivity|].
  unfold interested at 1. destruct (type r); simpl; try exact IH. congruence.
Qed.

Lemma setDocument_same (w : World) : setDocument (document w) w = w.
Proof. destruct w. reflexivity. Qed.

Lemma setDocument_twice (d1 d2 : list Node) (w : World) :
  setDocument d2 (setDocument d1 w) = setDocument d2 w.
Proof. reflexivity. Qed.

Section ChildListOnly.

Variable h : Host.
Variable obs : nat.

(** An idle observer registered for child-list changes only lets a batch
    of other changes pass: nothing is queued, nothing is delivered. *)
Lemma idle_ignores_batch (w : World) (b : list Node * list MutationRecord) :
  idleChildListObserver obs w ->
  noChildListRecord (snd b) ->
  runEvents h obs (insertionBatch b) w = setDocument (fst b) w.
Proof.
  intros (o & t & Ho & Hobs & Hq) Hb. destruct b as [d records].
  unfold insertionBatch, runEvents. cbn [fold_left hostStep fst snd].
  assert (Hsame : alterObserver (enqueueRecords records) obs (setDocument d w)
                  = setDocument d w).
  { apply alterObserver_fixed. simpl. intros o' Ho'. rewrite Ho in Ho'.
    inversion Ho'; subst o'. unfold enqueueRecords. rewrite Hobs, Hq.
    rewrite (filter_interested_none records Hb).
    destruct o as [hd ob q]. simpl in *. subst. reflexivity. }
  rewrite Hsame. unfold notify. simpl. rewrite Ho, Hq. reflexivity.
Qed.

Lemma idle_setDocument (d : list Node) (w : World) :
  idleChildListObserver obs w -> idleChildListObserver obs (setDocument d w).
Proof. intros H. exact H. Qed.

Lemma lastDocument_cons (b : list Node * list MutationRecord)
    (bs : list (list Node * list MutationRecord)) (w : World) :
  lastDocument (b :: bs) w = lastDocument bs (setDocument (fst b) w).
Proof.
  unfold lastDocument. rewrite last_cons. destruct (last bs); reflexivity.
Qed.

Lemma idle_ignores_batches (bs : list (list Node * list MutationRecord)) (w : World) :
  idleChildListObserver obs w ->
  Forall (fun b => noChildListRecord (snd b)) bs ->
  runEvents h obs (flat_map insertionBatch bs) w = setDocument (lastDocument bs w) w.
Proof.
  intros Hidle Hbs. revert w Hidle.
  induction Hbs as [|b bs Hb _ IH]; intros w Hidle.
  - simpl. symmetry. apply setDocument_same.
  - cbn [flat_map]. rewrite runEvents_app, (idle_ignores_batch w b Hidle Hb).
    rewrite (IH _ (idle_setDocument (fst b) w Hidle)).
    rewrite setDocument_twice, lastDocument_cons. reflexivity.
Qed.

End ChildListOnly.

Lemma onNewElement_idle (h : Host) (targetNode : JSValue) (selector : string)
    (callback : nat) (stop : bool) (w w0 : World) (obs : nat) :
  onNewElement h targetNode selector callback stop w = (Some obs, w0) ->
  idleChildListObserver obs w0.
Proof.
  intros Hstart.
  destruct (onNewElement_Some _ _ _ _ _ _ _ _ Hstart)
    as (target & _ & _ & _ & Hobs & Hobservers & _).
  eexists. exists (TargetNode target). rewrite Hobservers, Hobs.
  split; [apply lookup_new_observer|]. split; reflexivity.
Qed.

(** X3: a watch started by [onNewElement] is registered for child-list
    changes only: attribute and character-data changes of the page, even
    ones that make elements match the selector, leave the whole world as
    it is, the document apart; there is no callback and no selector
    query. *)
Theorem X3_onNewElement_ignores_other_changes (h : Host) (targetNode : JSValue)
    (selector : string) (callback : nat) (stop : bool) (w w0 : World) (obs : nat)
    (bs : list (list Node * list MutationRecord)) :
  onNewElement h targetNode selector callback stop w = (Some obs, w0) ->
  Forall (fun b => noChildListRecord (snd b)) bs ->
  runEvents h obs (flat_map insertionBatch bs) w0 = setDocument (lastDocument bs w0) w0.
Proof.
  intros Hstart Hbs. apply idle_ignores_batches; [|exact Hbs].
  exact (onNewElement_idle _ _ _ _ _ _ _ _ Hstart).
Qed.

Lemma X3_onNewElement_ignores_other_changes_witness :
  callbackLog
    (runEvents pageHost 0
       (flat_map insertionBatch
          [([div 1 [itemSpan 21]], [mkRecord attributes [] []]);
           ([div 1 [itemSpan 21; Text 22 "x"]], [mkRecord characterData [] []])])
       (snd (onNewElement pageHost (JSNodeRef (div 1 [div 21 []])) ".item" 7 false
               emptyWorld)))
  = [].
Proof.
  rewrite (X3_onNewElement_ignores_other_changes pageHost
             (JSNodeRef (div 1 [div 21 []])) ".item" 7 false emptyWorld _ 0).
  - reflexivity.
  - reflexivity.
  - repeat constructor; discriminate.
Defined.

(** ** [waitForElement] and matches that appear without an insertion *)

Lemma waitPending_idle (obs p : nat) (selector : string) (w : World) :
  waitPending obs p selector w -> pendingRecords obs w = [] ->
  idleChildListObserver obs w.
Proof.
  intros (o & Ho & _ & Hobs & _) Hq. unfold pendingRecords in Hq.
  rewrite Ho in Hq. exists o, TargetDocumentBody. auto.
Qed.

(** A child-list change of the page reaches a pending wait. *)
Lemma waitPending_enqueue (h : Host) (obs p : nat) (selector : string) (w : World)
    (d : list Node) (r : MutationRecord) (records : list MutationRecord) :
  waitPending obs p selector w ->
  type r = childList ->
  waitPending obs p selector (hostStep h obs w (DomChange d (r :: records)))
  /\ pendingRecords obs (hostStep h obs w (DomChange d (r :: records))) <> []
  /\ document (hostStep h obs w (DomChange d (r :: records))) = d.
Proof.
  intros (o & Ho & Hh & Hobs & Hp) Htype. cbn [hostStep].
  assert (Hlook : observers (alterObserver (enqueueRecords (r :: records)) obs
                               (setDocument d w)) !! obs
                  = Some (enqueueRecords (r :: records) o)).
  { rewrite lookup_alterObserver. simpl. rewrite Ho. reflexivity. }
  assert (Henq : enqueueRecords (r :: records) o
                 = mkObserver (handler o) (observing o)
                     (recordQueue o
                      ++ r :: List.filter (interested (mkConfig true true false false))
                                records)).
  { unfold enqueueRecords. rewrite Hobs. simpl. unfold interested at 1.
    rewrite Htype. reflexivity. }
  split; [|split].
  - exists (enqueueRecords (r :: records) o). split; [exact Hlook|].
    rewrite Henq. simpl. auto.
  - unfold pendingRecords. rewrite Hlook, Henq. simpl.
    destruct (recordQueue o); discriminate.
  - reflexivity.
Qed.

(** X8: [waitForElement] looks at the document only when a child-list
    change is delivered.  While the page changes in other ways only
    (attributes, character data), the promise stays pending, even if such
    a change has made an element match; the first child-list change
    delivered afterwards resolves it with the first match of the document
    as it is then. *)
Theorem X8_waitForElement_needs_child_list_change (h : Host) (selector : string)
    (w : World) (bs : list (list Node * list MutationRecord)) :
  documentMatch h selector (document w) = None ->
  Forall (fun b => noChildListRecord (snd b)) bs ->
  let p := fst (waitForElement h selector w) in
  let obs := length (observers w) in
  let w1 := runEvents h obs (flat_map insertionBatch bs)
              (snd (waitForElement h selector w)) in
  promises w1 !! p = Some pendingPromise
  /\ queryLog w1 = queryLog (snd (waitForElement h selector w))
  /\ document w1 = lastDocument bs w
  /\ forall (d : list Node) (r : MutationRecord) (records : list MutationRecord)
            (e : Node),
       type r = childList ->
       documentMatch h selector d = Some e ->
       promises (runEvents h obs (insertionBatch (d, r :: records)) w1) !! p
       = Some (resolvedWith e).
Proof.
  intros Hnone Hbs p obs w1.
  destruct (waitForElement_registers h selector w Hnone)
    as (Hp & Hps & Hobs & Hdoc & _).
  fold p in Hp.
  set (w0 := snd (waitForElement h selector w)) in *.
  assert (Hpending : waitPending obs p selector w0).
  { eexists. rewrite Hobs, Hps, Hp.
    split; [apply lookup_new_observer|]. split; [reflexivity|]. split; [reflexivity|].
    rewrite lookup_app_r by lia. rewrite Nat.sub_diag. reflexivity. }
  assert (Hq : pendingRecords obs w0 = []).
  { unfold pendingRecords. rewrite Hobs. unfold obs.
    rewrite lookup_new_observer. reflexivity. }
  assert (Hw1 : w1 = setDocument (lastDocument bs w0) w0).
  { unfold w1. apply idle_ignores_batches; [|exact Hbs].
    exact (waitPending_idle obs p selector w0 Hpending Hq). }
  assert (Hpending1 : waitPending obs p selector w1) by (rewrite Hw1; exact Hpending).
  split; [|split; [|split]].
  - destruct Hpending1 as (o & _ & _ & _ & Hpr). exact Hpr.
  - rewrite Hw1. reflexivity.
  - rewrite Hw1. simpl. unfold lastDocument. rewrite Hdoc. reflexivity.
  - intros d r records e Htype He.
    destruct (waitPending_enqueue h obs p selector w1 d r records Hpending1 Htype)
      as (Hpending2 & Hq2 & Hd2).
    pose proof (waitPending_deliver h selector obs p _ Hpending2 Hq2) as Hstep.
    rewrite Hd2, He in Hstep. destruct Hstep as [Hres _].
    unfold insertionBatch, runEvents. cbn [fold_left fst snd]. exact Hres.
Qed.

Lemma X8_waitForElement_needs_child_list_change_witness :
  documentMatch pageHost ".item" [div 1 [itemSpan 21]] = Some (itemSpan 21)
  /\ promises
       (runEvents pageHost 0
          (flat_map insertionBatch [([div 1 [itemSpan 21]], [mkRecord attributes [] []])])
          (snd (waitForElement pageHost ".item"
                  (setDocument [div 1 [Element 21 HTMLElementI "span" "" [] []]]
                     emptyWorld))))
     !! 0
     = Some pendingPromise.
Proof.
  split; [reflexivity|].
  pose proof (X8_waitForElement_needs_child_list_change pageHost ".item"
                (setDocument [div 1 [Element 21 HTMLElementI "span" "" [] []]] emptyWorld)
                [([div 1 [itemSpan 21]], [mkRecord attributes [] []])]
                eq_refl) as H.
  cbv zeta in H. apply H. repeat constructor; discriminate.
Defined.

(** ** Which element a stop-after-first session reports *)

Lemma recordMatches_subtrees (h : Host) (selector : string) (r : MutationRecord) :
  type r = childList ->
  recordMatches h selector r
  = matchingNodes h selector (flat_map subtree (List.filter isElement (addedNodes r))).
Proof.
  intros Ht. unfold recordMatches. rewrite Ht. apply nodesMatches_subtrees.
Qed.

(** X5: in a stop-after-first session the first record of a batch decides
    alone.  If the subtrees of its added element nodes hold a match, the
    callback is made once, for the first of them (in the order of the added
    nodes, each in tree order), and the observer is disconnected; if they
    hold none, there is no callback, whatever the later records of the batch
    add, and the observer stays registered with nothing pending. *)
Theorem X5_stop_first_record_decides (h : Host) (targetNode : JSValue)
    (selector : string) (callback : nat) (w w0 : World) (obs : nat)
    (d : list Node) (r : MutationRecord) (rest : list MutationRecord) :
  onNewElement h targetNode selector callback true w = (Some obs, w0) ->
  type r = childList ->
  let w1 := runEvents h obs (insertionBatch (d, r :: rest)) w0 in
  match head (matchingNodes h selector
                (flat_map subtree (List.filter isElement (addedNodes r)))) with
  | Some e => callbackLog w1 = callbackLog w ++ [(callback, e)] /\ inert obs w1
  | None => callbackLog w1 = callbackLog w /\ idleChildListObserver obs w1
  end.
Proof.
  intros Hstart Htype w1. subst w1.
  rewrite <- (recordMatches_subtrees h selector r Htype).
  destruct (onNewElement_Some _ _ _ _ _ _ _ _ Hstart)
    as (target & _ & _ & _ & Hobs & Hobservers & Hlog & _).
  unfold insertionBatch, runEvents. cbn [fold_left hostStep fst snd].
  assert (Hlook : observers (alterObserver (enqueueRecords (r :: rest)) obs
                               (setDocument d w0)) !! obs
                  = Some (mkObserver (OnNewElementHandler selector callback true)
                            (Some (TargetNode target, observerConfig))
                            (r :: List.filter (interested observerConfig) rest))).
  { rewrite lookup_alterObserver. simpl. rewrite Hobservers, Hobs.
    rewrite lookup_new_observer. simpl. unfold enqueueRecords. simpl.
    unfold interested at 1. rewrite Htype. reflexivity. }
  unfold notify. rewrite Hlook. cbn [recordQueue handler invokeHandler].
  set (w2 := alterObserver clearQueue obs
               (alterObserver (enqueueRecords (r :: rest)) obs (setDocument d w0))).
  assert (Hlook2 : observers w2 !! obs
                   = Some (mkObserver (OnNewElementHandler selector callback true)
                             (Some (TargetNode target, observerConfig)) [])).
  { unfold w2. rewrite lookup_alterObserver, Hlook. reflexivity. }
  destruct (onNewElementHandler_stop_first_record h selector callback obs r
              (List.filter (interested observerConfig) rest) w2)
    as (w' & Hrun & Hout).
  { unfold pendingRecords. rewrite Hlook2. reflexivity. }
  unfold runBody. rewrite Hrun. simpl.
  destruct (head (recordMatches h selector r)) as [e|].
  - destruct Hout as (_ & _ & Hl & Ho & _). simpl in Hl.
    split; [rewrite Hl; simpl; rewrite Hlog; reflexivity|].
    unfold inert. rewrite Ho, list_lookup_alter_eq, Hlook2. simpl. auto.
  - destruct Hout as (_ & _ & Hl & Ho & _). simpl in Hl.
    split; [rewrite Hl, app_nil_r; exact Hlog|].
    eexists. exists (TargetNode target).
    rewrite Ho, list_lookup_alter_eq, Hlook2. simpl. auto.
Qed.

Lemma X5_stop_first_record_decides_witness :
  callbackLog
    (runEvents pageHost 0
       (insertionBatch ([div 1 [Text 30 "t"; wrapper; itemSpan 40]],
                        [added [Text 30 "t"; wrapper; itemSpan 40]; added [itemSpan 41]]))
       (snd (onNewElement pageHost (JSNodeRef emptyRoot) ".item" 7 true emptyWorld)))
  = [(7, itemSpan 11)].
Proof.
  pose proof (X5_stop_first_record_decides pageHost (JSNodeRef emptyRoot) ".item" 7
                emptyWorld _ 0 [div 1 [Text 30 "t"; wrapper; itemSpan 40]]
                (added [Text 30 "t"; wrapper; itemSpan 40]) [added [itemSpan 41]]
                eq_refl eq_refl) as H.
  cbv zeta in H. simpl head in H. destruct H as [H _]. exact H.
Defined.

(** ** Continuous sessions and repeated reports *)

(** X10: in continuous mode no element is reported twice by a batch whose
    added subtrees do not overlap: when the nodes in the subtrees of the
    added element nodes are pairwise distinct, so are the elements the
    callbacks are made for. *)
Theorem X10_continuous_no_duplicates (h : Host) (selector : string)
    (callback obs : nat) (batch : list MutationRecord) (w : World) :
  List.NoDup (flat_map subtree (List.filter isElement (batchAddedNodes batch))) ->
  exists ns,
    callbackLog (snd (onNewElementHandler h selector callback false batch obs w))
    = callbackLog w ++ map (pair callback) ns
    /\ List.NoDup ns.
Proof.
  intros Hdistinct.
  destruct (onNewElementHandler_continuous h selector callback obs batch w)
    as (w' & Hrun & Hrep).
  rewrite Hrun. simpl. destruct Hrep as (_ & _ & Hl & _).
  exists (batchMatches h selector batch). split; [exact Hl|].
  rewrite batchMatches_subtrees. unfold matchingNodes.
  apply List.NoDup_filter. exact Hdistinct.
Qed.

Lemma X10_continuous_no_duplicates_witness :
  exists ns,
    callbackLog
      (snd (onNewElementHandler pageHost ".item" 7 false [added [wrapper; itemSpan 40]] 0
              emptyWorld))
    = map (pair 7) ns
    /\ List.NoDup ns.
Proof.
  apply (X10_continuous_no_duplicates pageHost ".item" 7 0
           [added [wrapper; itemSpan 40]] emptyWorld).
  simpl. repeat constructor; simpl; intuition discriminate.
Defined.

(** ** How a session ends *)

Section Registration.

Variable h : Host.
Variable selector : string.
Variable callback : nat.
Variable stop : bool.
Variable obs : nat.
Variable target : Node.
Variable base : list (nat * Node).

Lemma registeredOrDone_step (w : World) (ev : HostEvent) :
  ev <> Disconnect ->
  registeredOrDone obs selector callback stop target base w ->
  registeredOrDone obs selector callback stop target base (hostStep h obs w ev).
Proof.
  intros Hev (o & Ho & Hh & Hstate).
  destruct ev as [d records| |]; cbn [hostStep]; [| |congruence].
  - exists (enqueueRecords records o). rewrite lookup_alterObserver. simpl.
    rewrite Ho. split; [reflexivity|].
    split; [unfold enqueueRecords; destruct (observing o) as [[t c]|]; exact Hh|].
    destruct Hstate as [[Hobs Hlog]|(Hs & e & Hl & Hobs & Hq)].
    + left. unfold enqueueRecords. rewrite Hobs. simpl. auto.
    + right. split; [exact Hs|]. exists e. unfold enqueueRecords. rewrite Hobs. auto.
  - unfold notify. rewrite Ho.
    destruct (recordQueue o) as [|r queue] eqn:Hqueue.
    { exists o. split; [exact Ho|]. split; [exact Hh|].
      destruct Hstate as [Hreg|(Hs & e & Hl & Hobs & _)]; [left; exact Hreg|].
      right. split; [exact Hs|]. exists e. auto. }
    destruct Hstate as [[Hobs Hlog]|(_ & e & _ & _ & Hq)]; [|discriminate].
    rewrite Hh. unfold invokeHandler, runBody.
    assert (Hlook : observers (alterObserver clearQueue obs w) !! obs
                    = Some (clearQueue o))
      by (rewrite lookup_alterObserver, Ho; reflexivity).
    destruct stop.
    + pose proof (onNewElementHandler_stop h selector callback obs (r :: queue)
                    (alterObserver clearQueue obs w)) as Hrun.
      destruct (onNewElementHandler h selector callback true (r :: queue) obs
                  (alterObserver clearQueue obs w)) as [c w'].
      assert (Hw' : snd (match c with Normal _ => (tt, w') | Return r0 => (r0, w') end)
                    = w') by (destruct c; reflexivity).
      rewrite Hw'. clear Hw'.
      destruct Hrun as [[Hev'|Hev']|(_ & e & _ & Hev')];
        destruct Hev' as (_ & _ & Hl & Hob & _); simpl in Hl.
      * exists (clearQueue o). rewrite Hob. simpl. split; [exact Hlook|].
        split; [exact Hh|]. left. split; [exact Hobs|].
        intros _. rewrite Hl, app_nil_r. auto.
      * exists (clearQueue (clearQueue o)). rewrite Hob.
        rewrite list_lookup_alter_eq, Hlook. split; [reflexivity|].
        split; [exact Hh|]. left. split; [exact Hobs|].
        intros _. rewrite Hl, app_nil_r. auto.
      * exists (disconnectObserver (clearQueue o)). rewrite Hob.
        rewrite list_lookup_alter_eq, Hlook. split; [reflexivity|].
        split; [exact Hh|]. right. split; [reflexivity|]. exists e.
        rewrite Hl, (Hlog eq_refl). auto.
    + destruct (onNewElementHandler_continuous h selector callback obs (r :: queue)
                  (alterObserver clearQueue obs w)) as (w' & Hrun & Hrep).
      rewrite Hrun. simpl. destruct Hrep as (_ & _ & _ & Hob & _).
      exists (clearQueue o). rewrite Hob. unfold id. split; [exact Hlook|].
      split; [exact Hh|]. left. split; [exact Hobs|]. discriminate.
Qed.

Lemma registeredOrDone_run (events : list HostEvent) (w : World) :
  neverDisconnected events ->
  registeredOrDone obs selector callback stop target base w ->
  registeredOrDone obs selector callback stop target base (runEvents h obs events w).
Proof.
  intros Hev. revert w. induction Hev as [|ev events Hne _ IH]; intros w Hs; simpl.
  - exact Hs.
  - apply IH. apply registeredOrDone_step; assumption.
Qed.

End Registration.

(** X7: a session ends only by [disconnect()] or, in stop-after-first
    mode, with its one callback.  As long as the owner does not disconnect
    it, a continuous session stays registered on its target for child-list
    changes in the subtree whatever is delivered, and a stop-after-first
    session that has not called back is still registered too. *)
Theorem X7_session_ends_only_by_disconnect_or_callback (h : Host)
    (targetNode : JSValue) (selector : string) (callback : nat) (stop : bool)
    (w w0 : World) (obs : nat) (events : list HostEvent) :
  onNewElement h targetNode selector callback stop w = (Some obs, w0) ->
  neverDisconnected events ->
  exists target,
    targetNode = JSNodeRef target
    /\ registeredOrDone obs selector callback stop target (callbackLog w)
         (runEvents h obs events w0).
Proof.
  intros Hstart Hev.
  destruct (onNewElement_Some _ _ _ _ _ _ _ _ Hstart)
    as (target & Htarget & _ & _ & Hobs & Hobservers & Hlog & _).
  exists target. split; [exact Htarget|].
  apply registeredOrDone_run; [exact Hev|].
  eexists. rewrite Hobservers, Hobs. split; [apply lookup_new_observer|].
  simpl. split; [reflexivity|]. left. auto.
Qed.

Lemma X7_session_ends_only_by_disconnect_or_callback_witness :
  exists target,
    JSNodeRef emptyRoot = JSNodeRef target
    /\ registeredOrDone 0 ".item" 7 false target []
         (runEvents pageHost 0
            (insertionBatch ([div 1 [wrapper]], [added [wrapper]])
             ++ insertionBatch ([div 1 []], [mkRecord childList [] [wrapper]]))
            (snd (onNewElement pageHost (JSNodeRef emptyRoot) ".item" 7 false
                    emptyWorld))).
Proof.
  apply (X7_session_ends_only_by_disconnect_or_callback pageHost (JSNodeRef emptyRoot)
           ".item" 7 false emptyWorld _ 0 _ eq_refl).
  repeat constructor; discriminate.
Defined.

(** ** The three outcomes of [onNewElement] *)

Lemma onNewElement_fast_path (h : Host) (target : Node) (selector : string)
    (callback : nat) (w : World) (e : Node) :
  instanceofHTMLElement (JSNodeRef target) = true ->
  head (matchingNodes h selector (descendants target)) = Some e ->
  onNewElement h (JSNodeRef target) selector callback true w
  = (None,
     setCallbackLog (callbackLog w ++ [(callback, e)])
       (logQuery (QQuerySelector target selector) w)).
Proof.
  intros Hel He. unfold onNewElement, onNewElementBody. js_unfold.
  rewrite Hel. simpl. rewrite He. reflexivity.
Qed.

Lemma onNewElement_registers (h : Host) (target : Node) (selector : string)
    (callback : nat) (stop : bool) (w : World) :
  instanceofHTMLElement (JSNodeRef target) = true ->
  (stop = true -> head (matchingNodes h selector (descendants target)) = None) ->
  let result := onNewElement h (JSNodeRef target) selector callback stop w in
  fst result = Some (length (observers w))
  /\ console (snd result)
     = console w
       ++ [ConsoleLog ("MutationObserver started observing for '" ++ selector
                       ++ "' within")%string target]
  /\ callbackLog (snd result) = callbackLog w
  /\ observers (snd result)
     = observers w
       ++ [mkObserver (OnNewElementHandler selector callback stop)
                      (Some (TargetNode target, observerConfig)) []].
Proof.
  intros Hel Hnone. unfold onNewElement, onNewElementBody. js_unfold.
  rewrite Hel. destruct stop; simpl.
  - rewrite (Hnone eq_refl). simpl. unfold alterObserver. simpl.
    rewrite alter_app_r_alt by lia. rewrite Nat.sub_diag. auto.
  - unfold alterObserver. simpl.
    rewrite alter_app_r_alt by lia. rewrite Nat.sub_diag. auto.
Qed.

Lemma head_matchingNodes_None (h : Host) (selector : string) (l : list Node) :
  head (matchingNodes h selector l) = None <->
  ~ exists d, In d l /\ isElement d = true /\ matchesSelector h selector d = true.
Proof.
  split.
  - intros Hnone (d & Hd & He & Hm).
    destruct (head_filter_exists
                (fun n => isElement n && matchesSelector h selector n) l d Hd)
      as (y & Hy & _).
    { rewrite He, Hm. reflexivity. }
    unfold matchingNodes in Hnone. congruence.
  - intros Hno. destruct (head (matchingNodes h selector l)) as [e|] eqn:He;
      [|reflexivity].
    exfalso. apply Hno. exists e. unfold matchingNodes in He.
    apply head_filter_In in He. destruct He as [Hin Hp].
    apply andb_true_iff in Hp. tauto.
Qed.

(** X2: a call of [onNewElement] ends in one of three ways, which the
    caller can tell apart.  It returns [null] exactly when the target is
    not an [HTMLElement] or, with [stopOnFirstFind], some element below the
    target (the target itself does not count) already matches; in the
    first case the console gets the error and no callback is made, in the
    second the console is left alone and exactly one callback is made.
    Otherwise it returns an observer that did not exist before, writes the
    start message to the console and makes no callback.  No earlier
    observer is touched. *)
Theorem X2_onNewElement_outcomes (h : Host) (targetNode : JSValue)
    (selector : string) (callback : nat) (stop : bool) (w : World) :
  let result := onNewElement h targetNode selector callback stop w in
  let found :=
    stop = true
    /\ exists target d, targetNode = JSNodeRef target /\ In d (descendants target)
         /\ isElement d = true /\ matchesSelector h selector d = true in
  (fst result = None <-> instanceofHTMLElement targetNode = false \/ found)
  /\ (instanceofHTMLElement targetNode = false ->
      console (snd result)
      = console w ++ [ConsoleError "Invalid targetNode provided. Must be an HTMLElement."]
      /\ callbackLog (snd result) = callbackLog w
      /\ observers (snd result) = observers w)
  /\ (instanceofHTMLElement targetNode = true -> found ->
      console (snd result) = console w
      /\ (exists e, callbackLog (snd result) = callbackLog w ++ [(callback, e)])
      /\ observers (snd result) = observers w)
  /\ (forall obs, fst result = Some obs ->
      obs = length (observers w)
      /\ observers w !! obs = None
      /\ (exists o, observers (snd result) = observers w ++ [o])
      /\ (exists target,
            console (snd result)
            = console w
              ++ [ConsoleLog ("MutationObserver started observing for '" ++ selector
                              ++ "' within")%string target])
      /\ callbackLog (snd result) = callbackLog w).
Proof.
  intros result found. subst result found.
  destruct (instanceofHTMLElement targetNode) eqn:Hel.
  - destruct targetNode as [| |s|target]; try discriminate.
    destruct (head (matchingNodes h selector (descendants target))) as [e|] eqn:He.
    + (* a match below the target *)
      assert (Hex : exists target0 d, JSNodeRef target = JSNodeRef target0
                      /\ In d (descendants target0) /\ isElement d = true
                      /\ matchesSelector h selector d = true).
      { unfold matchingNodes in He. apply head_filter_In in He.
        destruct He as [Hin Hp]. apply andb_true_iff in Hp.
        exists target, e. tauto. }
      destruct stop.
      * rewrite (onNewElement_fast_path h target selector callback w e Hel He).
        simpl. split; [split; [auto|reflexivity]|].
        split; [discriminate|]. split; [|discriminate].
        intros _ _. split; [reflexivity|]. split; [eauto|reflexivity].
      * destruct (onNewElement_registers h target selector callback false w Hel)
          as (Hr & Hc & Hl & Ho); [discriminate|].
        rewrite Hr. split.
        { split; [discriminate|]. intros [Hf|[Hf _]]; discriminate. }
        split; [discriminate|]. split; [intros _ [Hf _]; discriminate|].
        intros obs Hobs. inversion Hobs; subst obs.
        split; [reflexivity|]. split; [apply lookup_ge_None; lia|].
        split; [eauto|]. split; [eauto|exact Hl].
    + (* no match below the target *)
      destruct (onNewElement_registers h target selector callback stop w Hel)
        as (Hr & Hc & Hl & Ho); [auto|].
      rewrite Hr.
      assert (Hnot : ~ (stop = true
                /\ exists target0 d, JSNodeRef target = JSNodeRef target0
                     /\ In d (descendants target0) /\ isElement d = true
                     /\ matchesSelector h selector d = true)).
      { intros (_ & target0 & d & Heq & Hd & Hde & Hdm). inversion Heq; subst target0.
        apply head_matchingNodes_None in He. apply He. eauto. }
      split; [split; [discriminate|]; intros [Hf|Hf]; [discriminate|tauto]|].
      split; [discriminate|]. split; [intros _ Hf; tauto|].
      intros obs Hobs. inversion Hobs; subst obs.
      split; [reflexivity|]. split; [apply lookup_ge_None; lia|].
      split; [eauto|]. split; [eauto|exact Hl].
  - rewrite (onNewElement_rejects h targetNode selector callback stop w Hel). simpl.
    split; [split; auto|]. split; [auto|]. split; [discriminate|]. discriminate.
Qed.

(** ** The geometry check of the visibility oracle *)

Lemma interval_overlap (a b c : Q) :
  (a < b -> 0 < c -> 0 < b -> a < c ->
   exists x, a < x /\ x < b /\ 0 < x /\ x < c)%Q.
Proof.
  intros Hab Hc Hb Hac.
  destruct (Qlt_le_dec a 0) as [Ha|Ha]; destruct (Qlt_le_dec b c) as [Hbc|Hbc].
  - exists (b * (1 # 2))%Q. lra.
  - exists (c * (1 # 2))%Q. lra.
  - exists ((a + b) * (1 # 2))%Q. lra.
  - exists ((a + c) * (1 # 2))%Q. lra.
Qed.

Lemma inject_Z_pos (z : Z) : (0 < z)%Z -> (0 < inject_Z z)%Q.
Proof. intros Hz. unfold Qlt. simpl. lia. Qed.

Lemma box_meets_viewport (h : Host) (el : Node) :
  (0 < innerWidth h)%Z -> (0 < innerHeight h)%Z ->
  (0 <= width (getBoundingClientRect h el))%Q ->
  (0 <= height (getBoundingClientRect h el))%Q ->
  ~ outsideViewport h (JSNodeRef el)
  <-> exists x y, insideBox (getBoundingClientRect h el) x y /\ insideViewport h x y.
Proof.
  intros HW HH Hw Hh. apply inject_Z_pos in HW. apply inject_Z_pos in HH.
  unfold outsideViewport, insideBox, insideViewport.
  set (rect := getBoundingClientRect h el) in *. split.
  - intros Hin.
    assert (Hgeo : ~ (width rect == 0 \/ height rect == 0
                      \/ left rect + width rect <= 0 \/ top rect + height rect <= 0
                      \/ inject_Z (innerWidth h) <= left rect
                      \/ inject_Z (innerHeight h) <= top rect)%Q).
    { intros Hout. apply Hin. exists el. split; [reflexivity|exact Hout]. }
    assert (Hw0 : ~ (width rect == 0)%Q) by tauto.
    assert (Hh0 : ~ (height rect == 0)%Q) by tauto.
    assert (Hr : ~ (left rect + width rect <= 0)%Q) by tauto.
    assert (Hb : ~ (top rect + height rect <= 0)%Q) by tauto.
    assert (Hl : ~ (inject_Z (innerWidth h) <= left rect)%Q) by tauto.
    assert (Ht : ~ (inject_Z (innerHeight h) <= top rect)%Q) by tauto.
    apply Qnot_le_lt in Hr, Hb, Hl, Ht.
    assert (Hwpos : (0 < width rect)%Q).
    { destruct (Qlt_le_dec 0 (width rect)) as [H|H]; [exact H|].
      exfalso. apply Hw0. apply Qle_antisym; assumption. }
    assert (Hhpos : (0 < height rect)%Q).
    { destruct (Qlt_le_dec 0 (height rect)) as [H|H]; [exact H|].
      exfalso. apply Hh0. apply Qle_antisym; assumption. }
    destruct (interval_overlap (left rect) (left rect + width rect)
                (inject_Z (innerWidth h))) as (x & Hx); try assumption; [lra|].
    destruct (interval_overlap (top rect) (top rect + height rect)
                (inject_Z (innerHeight h))) as (y & Hy); try assumption; [lra|].
    exists x, y. tauto.
  - intros (x & y & (Hx1 & Hx2 & Hy1 & Hy2) & (Hx3 & Hx4 & Hy3 & Hy4))
           (el' & Heq & Hout).
    inversion Heq; subst el'. fold rect in Hout. cbv zeta in Hout.
    destruct Hout as [H|[H|[H|[H|[H|H]]]]]; lra.
Qed.

(** X9: for an element with a box of non-negative size in a viewport of
    positive size, [isElementEffectivelyHidden] answers [false] exactly
    when the element is connected, its offset width and height are not
    zero, its computed style does not hide it, and some point lies
    strictly inside both its bounding rectangle and the viewport: an
    element that is only partly inside the viewport counts as visible, one
    that merely touches an edge from outside does not. *)
Theorem X9_visible_iff_box_meets_viewport (h : Host) (el : Node) :
  (0 < innerWidth h)%Z -> (0 < innerHeight h)%Z ->
  (0 <= width (getBoundingClientRect h el))%Q ->
  (0 <= height (getBoundingClientRect h el))%Q ->
  isElementEffectivelyHidden h (JSNodeRef el) = false
  <-> isConnected h el = true
      /\ offsetWidth h el <> 0%Z /\ offsetHeight h el <> 0%Z
      /\ ~ hiddenByStyle h (JSNodeRef el)
      /\ exists x y, insideBox (getBoundingClientRect h el) x y /\ insideViewport h x y.
Proof.
  intros HW HH Hw Hh.
  rewrite <- (box_meets_viewport h el HW HH Hw Hh).
  rewrite <- not_true_iff_false, isElementEffectivelyHidden_spec.
  rewrite zeroRenderedBox_node, orb_true_iff, !Z.eqb_eq. simpl.
  destruct (isConnected h el); split.
  - intros Hno. repeat split; try tauto.
  - intros (_ & Hw0 & Hh0 & Hs & Hg) [Hc|[Hz|[Hst|Hout]]];
      [discriminate|tauto|tauto|tauto].
  - intros Hno. exfalso. apply Hno. left. reflexivity.
  - intros (Hc & _). discriminate.
Qed.

Lemma X9_visible_iff_box_meets_viewport_witness :
  isElementEffectivelyHidden pageHost (JSNodeRef (div 1 [])) = false
  <-> isConnected pageHost (div 1 []) = true
      /\ offsetWidth pageHost (div 1 []) <> 0%Z /\ offsetHeight pageHost (div 1 []) <> 0%Z
      /\ ~ hiddenByStyle pageHost (JSNodeRef (div 1 []))
      /\ exists x y, insideBox (getBoundingClientRect pageHost (div 1 [])) x y
                     /\ insideViewport pageHost x y.
Proof.
  apply (X9_visible_iff_box_meets_viewport pageHost (div 1 []));
    simpl; try lia; discriminate.
Defined.

(** ** What the handler of [onNewElement] queries *)







Section HandlerQueries.

Variable h : Host.
Variable selector : string.
Variable callback : nat.
Variable obs : nat.
Variable stop : bool.





End HandlerQueries.



